(** * The UDF inventory plugins, embedded and checked against their specification

    The repository holds two revisions of one Ansible inventory plugin:
    [plugins/inventory/udf.py] (one hostname preference, a guarded group loop,
    OS names normalised for grouping) and [plugins/inventory/udf_inventory.py]
    (a list of hostname preferences, OS names grouped verbatim).  Both are
    embedded below, each in a module of its own, over a common model of the
    Python values, exceptions and side effects they rely on.

    Modelling conventions.
    - A decoded JSON document is a [pyval].  A [dict] is the association list
      of its items in insertion order (the keys of a decoded object are strings
      and pairwise distinct).  Integers are [Z]; a finite float is [m * 2^e].
    - Python [str] is [string]: a sequence of 8-bit characters.  [str.lower]
      is modelled on the ASCII letters and leaves every other character as it
      is: it is Python's [str.lower] on the strings that [is_ascii] accepts,
      and a statement about a lowercased string is made for those only.
    - [self.display] and [self.inventory] belong to Ansible.  The first is
      modelled as the list of the messages the plugin gave it, the second as
      the list of the calls the plugin made on it, both in order.  Every call
      is taken to return, which is what Ansible does when the name of a host
      or of a group is a string that is not empty; recent releases refuse any
      other name with [AnsibleError].  A statement that a run returns, or that
      a call is made after a host or a group was added, is therefore made for
      names and labels that are such strings.  What an inventory holds after
      these calls is read off the list by [hosts], [variables], [groups_of]
      and [members].
    - A method is a function into the monad [M], which threads that state and
      the exception a call may raise. *)

From stdpp Require Import base option list strings gmap.
From Stdlib Require Import ZArith Ascii String Lia.

Local Open Scope string_scope.
Local Open Scope Z_scope.

(** ** Python values *)

#[warnings="-register-all"]
Inductive pyval : Type :=
  | PNone
  | PBool (b : bool)
  | PInt (n : Z)
  | PFloat (m e : Z)
  | PStr (s : string)
  | PList (items : list pyval)
  | PDict (items : list (string * pyval)).

Definition pyval_eq_dec : forall x y : pyval, {x = y} + {x <> y}.
Proof.
  fix IH 1.
  decide equality; try apply Z.eq_dec.
  - apply bool_dec.
  - apply string_dec.
  - apply List.list_eq_dec. exact IH.
  - apply List.list_eq_dec. decide equality. apply string_dec.
Defined.

#[global] Instance pyval_eq : EqDecision pyval := pyval_eq_dec.

(** [bool(v)]: what [if v:] and [if not v:] test. *)
Definition truthy (v : pyval) : bool :=
  match v with
  | PNone => false
  | PBool b => b
  | PInt n => negb (n =? 0)
  | PFloat m _ => negb (m =? 0)
  | PStr s => negb (String.eqb s "")
  | PList items => match items with [] => false | _ :: _ => true end
  | PDict items => match items with [] => false | _ :: _ => true end
  end.

Definition is_None (v : pyval) : bool :=
  match v with PNone => true | _ => false end.

(** ** Exceptions *)

Inductive exn : Type :=
  | KeyError (key : pyval)
  | TypeError
  | IndexError
  | AttributeError
  | UnicodeError
  | ValueError
  | AnsibleError (message : string)
  | OtherException (description : string).

Inductive exn_class : Type :=
  | CKeyError | CTypeError | CIndexError | CAttributeError
  | CUnicodeError | CValueError | CAnsibleError | CException.

(** [isinstance(e, c)], with the two subclass relations the code meets:
    every exception is an [Exception], and [UnicodeError] is a [ValueError]. *)
Definition isinstance (e : exn) (c : exn_class) : bool :=
  match c, e with
  | CException, _ => true
  | CKeyError, KeyError _ => true
  | CTypeError, TypeError => true
  | CIndexError, IndexError => true
  | CAttributeError, AttributeError => true
  | CUnicodeError, UnicodeError => true
  | CValueError, ValueError => true
  | CValueError, UnicodeError => true
  | CAnsibleError, AnsibleError _ => true
  | _, _ => false
  end.

Definition caught (classes : list exn_class) (e : exn) : bool :=
  existsb (isinstance e) classes.

Inductive result (A : Type) : Type :=
  | Ok (a : A)
  | Raise (e : exn).
Arguments Ok {A} a.
Arguments Raise {A} e.

(** ** Subscription, attribute access, iteration *)

Inductive subscript : Type :=
  | Key (k : string)
  | Idx (i : Z).

Fixpoint dict_get (items : list (string * pyval)) (k : string) : option pyval :=
  match items with
  | [] => None
  | (k', v) :: rest => if String.eqb k' k then Some v else dict_get rest k
  end.

(** The position a sequence index denotes: negative indices count from the
    end, and an index outside the sequence denotes nothing. *)
Definition seq_index (len i : Z) : option nat :=
  let j := if i <? 0 then i + len else i in
  if (0 <=? j) && (j <? len) then Some (Z.to_nat j) else None.

Definition str_at (s : string) (n : nat) : option pyval :=
  match String.get n s with
  | Some c => Some (PStr (String c EmptyString))
  | None => None
  end.

(** [v[i]]. *)
Definition getitem (v : pyval) (i : subscript) : result pyval :=
  match v, i with
  | PDict items, Key k =>
      match dict_get items k with
      | Some x => Ok x
      | None => Raise (KeyError (PStr k))
      end
  | PDict _, Idx n => Raise (KeyError (PInt n))
  | PList items, Idx n =>
      match seq_index (Z.of_nat (List.length items)) n with
      | Some j => match items !! j with Some x => Ok x | None => Raise IndexError end
      | None => Raise IndexError
      end
  | PList _, Key _ => Raise TypeError
  | PStr s, Idx n =>
      match seq_index (Z.of_nat (String.length s)) n with
      | Some j => match str_at s j with Some x => Ok x | None => Raise IndexError end
      | None => Raise IndexError
      end
  | PStr _, Key _ => Raise TypeError
  | _, _ => Raise TypeError
  end.

(** [for x in v]: the items [v] is iterated over. *)
Fixpoint chars (s : string) : list pyval :=
  match s with
  | EmptyString => []
  | String c rest => PStr (String c EmptyString) :: chars rest
  end.

Definition iterate (v : pyval) : result (list pyval) :=
  match v with
  | PList items => Ok items
  | PDict items => Ok (map (fun kv => PStr (fst kv)) items)
  | PStr s => Ok (chars s)
  | _ => Raise TypeError
  end.

(** [s.replace(old, new)] for one-character [old] and [new]. *)
Fixpoint replace (old new : ascii) (s : string) : string :=
  match s with
  | EmptyString => EmptyString
  | String c rest =>
      String (if Ascii.eqb c old then new else c) (replace old new rest)
  end.

Definition lower_char (c : ascii) : ascii :=
  let n := nat_of_ascii c in
  if (Nat.leb 65 n && Nat.leb n 90)%bool then ascii_of_nat (n + 32) else c.

(** [s.lower()], on the ASCII letters. *)
Fixpoint lower (s : string) : string :=
  match s with
  | EmptyString => EmptyString
  | String c rest => String (lower_char c) (lower rest)
  end.

(** The strings whose characters are all ASCII: on them [lower] is
    [str.lower]. *)
Fixpoint is_ascii (s : string) : bool :=
  match s with
  | EmptyString => true
  | String c rest => (Nat.ltb (nat_of_ascii c) 128 && is_ascii rest)%bool
  end.

(** ** State and the monad of methods *)

Inductive message : Type :=
  | Warning (text : string)
  | Error (text : string).

(** The calls [self.inventory] receives: [add_host(host, group=None)],
    [set_variable(entity, varname, value)] and [add_group(group)]. *)
Inductive call : Type :=
  | AddHost (host : pyval) (group : option pyval)
  | SetVariable (entity : pyval) (varname : string) (value : pyval)
  | AddGroup (group : pyval).

Record world : Type := World {
  display : list message;
  inventory : list call
}.

Definition M (A : Type) : Type := world -> result A * world.

#[global] Instance M_ret : MRet M := fun A a w => (Ok a, w).
#[global] Instance M_bind : MBind M := fun A B f m w =>
  match m w with
  | (Ok a, w') => f a w'
  | (Raise e, w') => (Raise e, w')
  end.

#[global] Instance M_fmap : FMap M := fun A B f m w =>
  match m w with
  | (Ok a, w') => (Ok (f a), w')
  | (Raise e, w') => (Raise e, w')
  end.

Definition raise {A : Type} (e : exn) : M A := fun w => (Raise e, w).

Definition lift {A : Type} (r : result A) : M A := fun w => (r, w).

(** [try: body / except classes: handler]. *)
Definition try_except {A : Type} (body : M A) (classes : list exn_class)
    (handler : exn -> M A) : M A := fun w =>
  match body w with
  | (Raise e, w') => if caught classes e then handler e w' else (Raise e, w')
  | r => r
  end.

Definition display_warning (text : string) : M unit := fun w =>
  (Ok tt, World (display w ++ [Warning text]) (inventory w)).

Definition display_error (text : string) : M unit := fun w =>
  (Ok tt, World (display w ++ [Error text]) (inventory w)).

Definition invoke (c : call) : M unit := fun w =>
  (Ok tt, World (display w) (inventory w ++ [c])).

Definition inventory_add_host (host : pyval) (group : option pyval) : M unit :=
  invoke (AddHost host group).
Definition inventory_set_variable (entity : pyval) (varname : string)
    (value : pyval) : M unit := invoke (SetVariable entity varname value).
Definition inventory_add_group (group : pyval) : M unit := invoke (AddGroup group).

Definition empty_world : world := World [] [].

(** What an inventory that received the calls [inv] holds: the hosts and the
    groups, each once, the variables of an entity (a later value of a
    variable replaces an earlier one), and the hosts added to a group. *)
Definition hosts (inv : list call) : list pyval :=
  remove_dups
    (omap (fun c => match c with AddHost h _ => Some h | _ => None end) inv).

Definition groups_of (inv : list call) : list pyval :=
  remove_dups
    (omap (fun c => match c with AddGroup g => Some g | _ => None end) inv).

Definition variables (inv : list call) (entity : pyval) : gmap string pyval :=
  foldl (fun vars c =>
           match c with
           | SetVariable e k v => if decide (e = entity) then <[k := v]> vars else vars
           | _ => vars
           end) ∅ inv.

Definition members (inv : list call) (group : pyval) : list pyval :=
  remove_dups
    (omap (fun c => match c with
                    | AddHost h (Some g) => if decide (g = group) then Some h else None
                    | _ => None
                    end) inv).

Definition extractor : Type := pyval -> M pyval.

(** [for x in items: body(x)]. *)
Fixpoint for_each {A : Type} (items : list A) (body : A -> M unit) : M unit :=
  match items with
  | [] => mret tt
  | x :: rest => body x ;; for_each rest body
  end.

(** ** Dictionaries built by the code

    A [dict] the code fills is the list of its items in insertion order.
    Keys are compared as Python compares them: numbers by value (so [True],
    [1] and [1.0] are one key), strings character by character, [None] with
    itself; a list or a [dict] is not hashable and cannot be a key. *)

#[global] Instance result_ret : MRet result := fun A a => Ok a.
#[global] Instance result_bind : MBind result := fun A B f r =>
  match r with
  | Ok a => f a
  | Raise e => Raise e
  end.

Definition hashable (v : pyval) : bool :=
  match v with
  | PList _ | PDict _ => false
  | _ => true
  end.

(** A number, as [m * 2^e]. *)
Definition number_of (v : pyval) : option (Z * Z) :=
  match v with
  | PBool b => Some (if b then 1 else 0, 0)
  | PInt n => Some (n, 0)
  | PFloat m e => Some (m, e)
  | _ => None
  end.

Definition number_eqb (x y : Z * Z) : bool :=
  let '(m1, e1) := x in
  let '(m2, e2) := y in
  if e1 <=? e2 then m1 =? m2 * 2 ^ (e2 - e1) else m1 * 2 ^ (e1 - e2) =? m2.

(** [a == b] on hashable values. *)
Definition key_eqb (a b : pyval) : bool :=
  match number_of a, number_of b with
  | Some x, Some y => number_eqb x y
  | None, None =>
      match a, b with
      | PNone, PNone => true
      | PStr s, PStr t => String.eqb s t
      | _, _ => false
      end
  | _, _ => false
  end.

(** [d.get(k)]. *)
Fixpoint key_get (d : list (pyval * pyval)) (k : pyval) : option pyval :=
  match d with
  | [] => None
  | (k', v') :: rest => if key_eqb k' k then Some v' else key_get rest k
  end.

Fixpoint key_set (d : list (pyval * pyval)) (k v : pyval) : list (pyval * pyval) :=
  match d with
  | [] => [(k, v)]
  | (k', v') :: rest =>
      if key_eqb k' k then (k', v) :: rest else (k', v') :: key_set rest k v
  end.

(** [d[k] = v]: the value of an equal key is replaced where it stands, a new
    key is added at the end. *)
Definition setitem (d : list (pyval * pyval)) (k v : pyval)
    : result (list (pyval * pyval)) :=
  if hashable k then Ok (key_set d k v) else Raise TypeError.

(** ** The metadata service

    [open_url], [response.read], [to_text] and [json.loads] are library calls.
    A [remote] gives, for a URL, what [open_url] does: it raises, or it returns
    a response whose body is one of: bytes that are not UTF-8, and not JSON
    once decoded; text that is not JSON; or a JSON document. *)

Inductive body : Type :=
  | NotText
  | NotJson
  | Document (v : pyval).

Definition remote : Type := string -> result body.

Definition open_url (net : remote) (url : string) : M body := lift (net url).

(** [to_text(response.read(), errors='surrogate_or_strict')].  Under
    Python 3 every sequence of bytes is decoded, a byte that is not UTF-8
    into a surrogate: the call returns, and it is [json.loads] that refuses
    the text. *)
Definition to_text (response : body) : M body := mret response.

(** [json.loads(raw_data)]. *)
Definition json_loads (raw_data : body) : M pyval :=
  match raw_data with
  | Document v => mret v
  | _ => raise ValueError
  end.

(** [to_native(e)]: the text of an exception.  The model carries the text
    of an [AnsibleError] and of an [OtherException], which is what [open_url]
    raises; for a built-in exception, whose text it does not carry, the name
    of the class stands in its place. *)
Definition to_native (e : exn) : string :=
  match e with
  | KeyError _ => "KeyError"
  | TypeError => "TypeError"
  | IndexError => "IndexError"
  | AttributeError => "AttributeError"
  | UnicodeError => "UnicodeError"
  | ValueError => "ValueError"
  | AnsibleError m => m
  | OtherException d => d
  end.

Definition API_ENDPOINT : string := "http://metadata.udf".

(** [urljoin(API_ENDPOINT, "deployment")]. *)
Definition servers_url : string := API_ENDPOINT ++ "/deployment".

(** The keyword tuple of the [except] clauses of the extractors. *)
Definition lookup_errors : list exn_class := [CKeyError; CTypeError; CIndexError].
Definition key_errors : list exn_class := [CKeyError; CTypeError].

(** [table[key]] on a dictionary of extractors. *)
Definition table_get (table : gmap string extractor) (key : string) : M extractor :=
  match table !! key with
  | Some f => mret f
  | None => raise (KeyError (PStr key))
  end.

(** ** [plugins/inventory/udf.py] *)

Module Udf.

Definition extract_private_ipv4 (host_infos : pyval) : M pyval :=
  try_except (lift (getitem host_infos (Key "mgmtIp")))
    lookup_errors
    (fun _ =>
       display_warning "An error happened while extracting private IPv4 address. Information skipped.";;
       mret PNone).

Definition extract_internal_ssh_port (host_infos : pyval) : M pyval :=
  try_except
    (access ← lift (getitem host_infos (Key "accessMethods"));
     ssh ← lift (getitem access (Key "ssh"));
     first ← lift (getitem ssh (Idx 0));
     lift (getitem first (Key "internalPort")))
    lookup_errors
    (fun _ => mret PNone).

Definition extract_name (host_infos : pyval) : M pyval :=
  try_except (lift (getitem host_infos (Key "name")))
    key_errors
    (fun _ =>
       display_warning "An error happened while extracting name. Information skipped.";;
       mret PNone).

Definition extract_id (host_infos : pyval) : M pyval :=
  try_except (lift (getitem host_infos (Key "id")))
    key_errors
    (fun _ =>
       display_warning "An error happened while extracting id. Information skipped.";;
       mret PNone).

Definition extract_os_name (host_infos : pyval) : M pyval :=
  try_except (lift (getitem host_infos (Key "osName")))
    key_errors
    (fun _ =>
       display_warning "An error happened while extracting OS name. Information skipped.";;
       mret PNone).

(** [v.replace(" ", "_").replace(".", "_").lower()]: only a [str] has the
    attribute [replace]. *)
Definition normalise (v : pyval) : result pyval :=
  match v with
  | PStr s => Ok (PStr (lower (replace "." "_" (replace " " "_" s))))
  | _ => Raise AttributeError
  end.

Definition extract_os_name_for_group (host_infos : pyval) : M pyval :=
  try_except
    (os_name ← lift (getitem host_infos (Key "osName"));
     lift (normalise os_name))
    key_errors
    (fun _ =>
       display_warning "An error happened while extracting OS name for group. Information skipped.";;
       mret PNone).

Definition _fetch_information (net : remote) (url : string) : M pyval :=
  response ← try_except (Some <$> open_url net url)
    [CException]
    (fun e =>
       display_error ("An error happened while fetching: " ++ url ++ " " ++ to_native e);;
       mret None);
  match response with
  | None => mret PNone
  | Some response =>
      try_except
        (raw_data ← to_text response; json_loads raw_data)
        [CUnicodeError; CValueError]
        (fun e =>
           if isinstance e CUnicodeError
           then raise (AnsibleError "Incorrect encoding of fetched payload from UDF servers")
           else raise (AnsibleError "Incorrect JSON payload"))
  end.

Definition _fill_host_variables (hostname host_infos : pyval) : M unit :=
  private_ipv4 ← extract_private_ipv4 host_infos;
  (if truthy private_ipv4
   then value ← extract_private_ipv4 host_infos;
        inventory_set_variable hostname "private_ipv4" value
   else mret tt);;
  internal_ssh_port ← extract_internal_ssh_port host_infos;
  (if truthy internal_ssh_port
   then value ← extract_internal_ssh_port host_infos;
        inventory_set_variable hostname "internal_ssh_port" value
   else mret tt);;
  name ← extract_name host_infos;
  (if truthy name
   then value ← extract_name host_infos;
        inventory_set_variable hostname "name" value
   else mret tt);;
  id ← extract_id host_infos;
  (if truthy id
   then value ← extract_name host_infos;
        inventory_set_variable hostname "id" value
   else mret tt);;
  os_name ← extract_os_name host_infos;
  (if truthy os_name
   then value ← extract_os_name host_infos;
        inventory_set_variable hostname "os_name" value
   else mret tt).

(** [self.extractors] and [self.group_extractors], as [parse] sets them. *)
Definition extractors : gmap string extractor :=
  {[ "private_ipv4" := extract_private_ipv4; "id" := extract_id ]}.

Definition group_extractors : gmap string extractor :=
  {[ "os" := extract_os_name_for_group ]}.

Definition _filter_host (host_infos : pyval) (hostname_preference : string) : M pyval :=
  extract ← table_get extractors hostname_preference;
  candidate ← extract host_infos;
  if truthy candidate
  then extract ← table_get extractors hostname_preference;
       extract host_infos
  else mret PNone.

(** The loop [for g in group_preferences] of [do_server_inventory]; each of
    its two [return] statements leaves the method, and so the loop. *)
Fixpoint assign_groups (hostname host_infos : pyval)
    (group_preferences : list string) : M unit :=
  match group_preferences with
  | [] => mret tt
  | g :: rest =>
      match group_extractors !! g with
      | None => display_warning ("Invalid group name '" ++ g ++ "' specified.")
      | Some _ =>
          extract ← table_get group_extractors g;
          group ← extract host_infos;
          if negb (truthy group)
          then mret tt
          else inventory_add_group group;;
               inventory_add_host hostname (Some group);;
               assign_groups hostname host_infos rest
      end
  end.

Definition do_server_inventory (host_infos : pyval) (hostname_preference : string)
    (group_preferences : list string) : M unit :=
  hostname ← _filter_host host_infos hostname_preference;
  if negb (truthy hostname)
  then mret tt
  else inventory_add_host hostname None;;
       _fill_host_variables hostname host_infos;;
       assign_groups hostname host_infos group_preferences.

(** The options of the configuration file, as [get_option] returns them. *)
Record options : Type := Options {
  hostname : string;
  groups : option (list string)
}.

Definition parse (net : remote) (config : options) : M unit :=
  let hostname_preference := hostname config in
  let group_preferences :=
    match groups config with
    | None => []
    | Some preferences => preferences
    end in
  deployment_info ← _fetch_information net servers_url;
  if is_None deployment_info
  then display_error "Error occurred. No inventory could be fetched from UDF API."
  else
    deployment ← lift (getitem deployment_info (Key "deployment"));
    components ← lift (getitem deployment (Key "components"));
    records ← lift (iterate components);
    for_each records (fun component_info =>
      do_server_inventory component_info hostname_preference group_preferences).

End Udf.

(** ** [plugins/inventory/udf_inventory.py] *)

Module UdfInventory.

Definition extract_public_ipv4 (host_infos : pyval) : M pyval :=
  try_except (lift (getitem host_infos (Key "mgmtIp")))
    lookup_errors
    (fun _ =>
       display_warning "An error happened while extracting public IPv4 address. Information skipped.";;
       mret PNone).

Definition extract_private_ipv4 (host_infos : pyval) : M pyval :=
  try_except (lift (getitem host_infos (Key "mgmtIp")))
    lookup_errors
    (fun _ =>
       display_warning "An error happened while extracting private IPv4 address. Information skipped.";;
       mret PNone).

Definition extract_internal_ssh_port (host_infos : pyval) : M pyval :=
  try_except
    (access ← lift (getitem host_infos (Key "accessMethods"));
     ssh ← lift (getitem access (Key "ssh"));
     first ← lift (getitem ssh (Idx 0));
     lift (getitem first (Key "internalPort")))
    lookup_errors
    (fun _ => mret PNone).

Definition extract_name (host_infos : pyval) : M pyval :=
  try_except (lift (getitem host_infos (Key "name")))
    key_errors
    (fun _ =>
       display_warning "An error happened while extracting name. Information skipped.";;
       mret PNone).

Definition extract_id (host_infos : pyval) : M pyval :=
  try_except (lift (getitem host_infos (Key "id")))
    key_errors
    (fun _ =>
       display_warning "An error happened while extracting id. Information skipped.";;
       mret PNone).

Definition extract_os_name (host_infos : pyval) : M pyval :=
  try_except (lift (getitem host_infos (Key "osName")))
    key_errors
    (fun _ =>
       display_warning "An error happened while extracting OS name. Information skipped.";;
       mret PNone).

Definition extract_hostname (host_infos : pyval) : M pyval :=
  try_except (lift (getitem host_infos (Key "id")))
    key_errors
    (fun _ =>
       display_warning "An error happened while extracting hostname. Information skipped.";;
       mret PNone).

Definition extract_deployment (host_infos : pyval) : M pyval :=
  try_except
    (deployment ← lift (getitem host_infos (Key "deployment"));
     lift (getitem deployment (Key "id")))
    key_errors
    (fun _ =>
       display_warning "An error happened while extracting deployment id. Information skipped.";;
       mret PNone).

Definition _fetch_information (net : remote) (url : string) : M pyval :=
  response ← try_except (Some <$> open_url net url)
    [CException]
    (fun e =>
       display_error ("An error happened while fetching: " ++ url ++ " " ++ to_native e);;
       mret None);
  match response with
  | None => mret PNone
  | Some response =>
      try_except
        (raw_data ← to_text response; json_loads raw_data)
        [CUnicodeError; CValueError]
        (fun e =>
           if isinstance e CUnicodeError
           then raise (AnsibleError "Incorrect encoding of fetched payload from UDF servers")
           else raise (AnsibleError "Incorrect JSON payload"))
  end.

(** The inner loop of [extract_rpn_lookup_cache]: in
    [lookup[member["id"]] = rpn["name"]] the right-hand side is evaluated
    first. *)
Fixpoint add_members (rpn : pyval) (members : list pyval)
    (lookup : list (pyval * pyval)) : result (list (pyval * pyval)) :=
  match members with
  | [] => Ok lookup
  | member :: rest =>
      name ← getitem rpn (Key "name");
      id ← getitem member (Key "id");
      lookup ← setitem lookup id name;
      add_members rpn rest lookup
  end.

(** Its outer loop. *)
Fixpoint add_groups (rpns : list pyval) (lookup : list (pyval * pyval))
    : result (list (pyval * pyval)) :=
  match rpns with
  | [] => Ok lookup
  | rpn :: rest =>
      members ← getitem rpn (Key "members");
      members ← iterate members;
      lookup ← add_members rpn members lookup;
      add_groups rest lookup
  end.

(** A static method: it uses neither the display nor the inventory. *)
Definition extract_rpn_lookup_cache (rpn_list : pyval)
    : result (list (pyval * pyval)) :=
  rpns ← iterate rpn_list;
  add_groups rpns [].

Definition _fill_host_variables (hostname host_infos : pyval) : M unit :=
  public_ipv4 ← extract_public_ipv4 host_infos;
  (if truthy public_ipv4
   then value ← extract_public_ipv4 host_infos;
        inventory_set_variable hostname "public_ipv4" value
   else mret tt);;
  private_ipv4 ← extract_private_ipv4 host_infos;
  (if truthy private_ipv4
   then value ← extract_private_ipv4 host_infos;
        inventory_set_variable hostname "private_ipv4" value
   else mret tt);;
  internal_ssh_port ← extract_internal_ssh_port host_infos;
  (if truthy internal_ssh_port
   then value ← extract_internal_ssh_port host_infos;
        inventory_set_variable hostname "internal_ssh_port" value
   else mret tt);;
  name ← extract_name host_infos;
  (if truthy name
   then value ← extract_name host_infos;
        inventory_set_variable hostname "name" value
   else mret tt);;
  id ← extract_id host_infos;
  (if truthy id
   then value ← extract_name host_infos;
        inventory_set_variable hostname "id" value
   else mret tt);;
  os_name ← extract_os_name host_infos;
  (if truthy os_name
   then value ← extract_os_name host_infos;
        inventory_set_variable hostname "os_name" value
   else mret tt).

(** [self.extractors] and [self.group_extractors], as [parse] sets them. *)
Definition extractors : gmap string extractor :=
  {[ "public_ipv4" := extract_public_ipv4;
     "private_ipv4" := extract_private_ipv4;
     "hostname" := extract_hostname ]}.

Definition group_extractors : gmap string extractor :=
  {[ "os" := extract_os_name ]}.

Fixpoint _filter_host (host_infos : pyval) (hostname_preferences : list string) : M pyval :=
  match hostname_preferences with
  | [] => mret PNone
  | pref :: rest =>
      extract ← table_get extractors pref;
      candidate ← extract host_infos;
      if truthy candidate
      then extract ← table_get extractors pref;
           extract host_infos
      else _filter_host host_infos rest
  end.

(** The loop [for g in group_preferences] of [do_server_inventory]; its
    [return] statement leaves the method, and so the loop. *)
Fixpoint assign_groups (hostname host_infos : pyval)
    (group_preferences : list string) : M unit :=
  match group_preferences with
  | [] => mret tt
  | g :: rest =>
      extract ← table_get group_extractors g;
      group ← extract host_infos;
      if negb (truthy group)
      then mret tt
      else inventory_add_group group;;
           inventory_add_host hostname (Some group);;
           assign_groups hostname host_infos rest
  end.

Definition do_server_inventory (host_infos : pyval)
    (hostname_preferences group_preferences : list string) : M unit :=
  hostname ← _filter_host host_infos hostname_preferences;
  if negb (truthy hostname)
  then mret tt
  else inventory_add_host hostname None;;
       _fill_host_variables hostname host_infos;;
       assign_groups hostname host_infos group_preferences.

Record options : Type := Options {
  hostnames : list string;
  groups : option (list string)
}.

Definition parse (net : remote) (config : options) : M unit :=
  let hostname_preferences := hostnames config in
  let group_preferences :=
    match groups config with
    | None => []
    | Some preferences => preferences
    end in
  deployment_info ← _fetch_information net servers_url;
  if is_None deployment_info
  then display_error "Error occurred. No inventory could be fetched from UDF API."
  else
    deployment ← lift (getitem deployment_info (Key "deployment"));
    components ← lift (getitem deployment (Key "components"));
    records ← lift (iterate components);
    for_each records (fun component_info =>
      do_server_inventory component_info hostname_preferences group_preferences).

End UdfInventory.

(** * Auxiliary definitions

    Notions the statements below are phrased with, and the records and
    payloads they are tried on. *)

(** The value of a field of a record, [None] when the lookup raises. *)
Definition field (host_infos : pyval) (k : string) : pyval :=
  match getitem host_infos (Key k) with
  | Ok v => v
  | Raise _ => PNone
  end.

(** The world after more messages on the display. *)
Definition warned (w : world) (log : list message) : world :=
  World (display w ++ log) (inventory w).

(** [f] neither raises nor touches the inventory; what it returns depends on
    the record alone, and it warns only when it returns a false value. *)
Definition total (f : extractor) : Prop :=
  forall host_infos, exists v log,
    (truthy v = true -> log = [])
    /\ forall w, f host_infos w = (Ok v, warned w log).

(** [f] returns [v] on the record, whatever the state. *)
Definition yields (f : extractor) (host_infos v : pyval) : Prop :=
  forall w, fst (f host_infos w) = Ok v.

Definition scenario_A : pyval :=
  PDict [("deployment", PDict [("components", PList [
    PDict [("id", PStr "h1"); ("name", PStr "web1");
           ("mgmtIp", PStr "10.0.0.5"); ("osName", PStr "CentOS 7")]])])].

Definition scenario_A_pass : result unit * world :=
  Udf.parse (fun _ => Ok (Document scenario_A))
    (Udf.Options "private_ipv4" (Some ["os"])) empty_world.

(** What the extractor registered under [p] returns on a record. *)
Definition value_at (table : gmap string extractor) (host_infos : pyval)
    (p : string) (v : pyval) : Prop :=
  exists f : extractor, table !! p = Some f /\ yields f host_infos v.

Definition absent_at (table : gmap string extractor) (host_infos : pyval)
    (p : string) : Prop :=
  exists v, value_at table host_infos p v /\ truthy v = false.

Definition present_at (table : gmap string extractor) (host_infos : pyval)
    (p : string) : Prop :=
  exists v, value_at table host_infos p v /\ truthy v = true.

(** The first present value of a list of candidates, [None] when there is
    none: the contract of the hostname resolver, in the words of the
    specification. *)
Definition first_present (candidates : list pyval) : pyval :=
  default PNone (List.find truthy candidates).

Definition two_identities : pyval :=
  PDict [("id", PStr "h1"); ("mgmtIp", PStr "10.0.0.5")].

Definition only_management_address : pyval :=
  PDict [("mgmtIp", PStr "10.0.0.5")].

(** Presence, decided by running the extractor. *)
Definition present_now (table : gmap string extractor) (h : pyval) (p : string) : bool :=
  from_option
    (fun f : extractor =>
       match fst (f h empty_world) with Ok v => truthy v | Raise _ => false end)
    false (table !! p).

Definition no_identity : pyval :=
  PDict [("name", PStr "web1"); ("osName", PStr "CentOS 7")].

Definition normalised (s : string) : string :=
  lower (replace "." "_" (replace " " "_" s)).

Definition ubuntu_host : pyval :=
  PDict [("mgmtIp", PStr "10.0.0.5"); ("osName", PStr "Ubuntu 20.04 LTS")].


(** The world after more messages and more calls. *)
Definition extend (w : world) (log : list message) (calls : list call) : world :=
  World (display w ++ log) (inventory w ++ calls).

(** The call a guarded [set_variable] makes. *)
Definition set_if (test hostname : pyval) (k : string) (value : pyval) : list call :=
  if truthy test then [SetVariable hostname k value] else [].

Definition field_log (host_infos : pyval) (k text : string) : list message :=
  match getitem host_infos (Key k) with
  | Ok _ => []
  | Raise _ => [Warning text]
  end.

(** [host_infos["accessMethods"]["ssh"][0]["internalPort"]]. *)
Definition internal_port_path (host_infos : pyval) : result pyval :=
  match getitem host_infos (Key "accessMethods") with
  | Raise e => Raise e
  | Ok access =>
      match getitem access (Key "ssh") with
      | Raise e => Raise e
      | Ok ssh =>
          match getitem ssh (Idx 0) with
          | Raise e => Raise e
          | Ok first => getitem first (Key "internalPort")
          end
      end
  end.

Definition port (host_infos : pyval) : pyval :=
  match internal_port_path host_infos with
  | Ok v => v
  | Raise _ => PNone
  end.

Definition udf_fill_calls (hostname h : pyval) : list call :=
  (set_if (field h "mgmtIp") hostname "private_ipv4" (field h "mgmtIp")
   ++ set_if (port h) hostname "internal_ssh_port" (port h)
   ++ set_if (field h "name") hostname "name" (field h "name")
   ++ set_if (field h "id") hostname "id" (field h "name")
   ++ set_if (field h "osName") hostname "os_name" (field h "osName"))%list.

Definition is_SetVariable (c : call) : Prop :=
  match c with SetVariable _ _ _ => True | _ => False end.

Definition no_access_methods : pyval :=
  PDict [("id", PStr "h1"); ("name", PStr "web1");
         ("mgmtIp", PStr "10.0.0.5"); ("osName", PStr "CentOS 7")].

Definition empty_ssh_list : pyval :=
  PDict [("mgmtIp", PStr "10.0.0.5");
         ("accessMethods", PDict [("ssh", PList [])])].

(** The record of Scenario A with access methods that hold no [ssh]. *)
Definition ssh_absent_host : pyval :=
  PDict [("id", PStr "h1"); ("name", PStr "web1");
         ("mgmtIp", PStr "10.0.0.5"); ("osName", PStr "CentOS 7");
         ("accessMethods", PDict [])].

Definition centos_host : pyval :=
  PDict [("id", PStr "h1"); ("name", PStr "web1");
         ("mgmtIp", PStr "10.0.0.5"); ("osName", PStr "CentOS 7")].

Definition host_without_os : pyval :=
  PDict [("id", PStr "h1"); ("name", PStr "web1"); ("mgmtIp", PStr "10.0.0.5")].

Definition numeric_os_host : pyval :=
  PDict [("mgmtIp", PStr "10.0.0.5"); ("osName", PInt 7)].

Definition two_hosts_first_numeric_os : pyval :=
  PDict [("deployment", PDict [("components", PList [
    PDict [("id", PStr "h0"); ("name", PStr "db1");
           ("mgmtIp", PStr "10.0.0.5"); ("osName", PInt 7)];
    PDict [("id", PStr "h1"); ("name", PStr "web1");
           ("mgmtIp", PStr "10.0.0.6"); ("osName", PStr "CentOS 7")]])])].

Definition numeric_os_pass : result unit * world :=
  Udf.parse (fun _ => Ok (Document two_hosts_first_numeric_os))
    (Udf.Options "private_ipv4" (Some ["os"])) empty_world.

Definition host_with_id_only : pyval :=
  PDict [("mgmtIp", PStr "10.0.0.5"); ("id", PStr "h1")].

Definition host_with_port_zero : pyval :=
  PDict [("mgmtIp", PStr "10.0.0.5");
         ("accessMethods", PDict [("ssh", PList [PDict [("internalPort", PInt 0)]])])].

Definition host_with_empty_identity : pyval :=
  PDict [("mgmtIp", PStr ""); ("name", PStr "web1")].

(** [m] returns [r] after adding the messages [log] to the display and the
    calls [calls] to the inventory, whatever the state it starts from. *)
Definition writes {A : Type} (m : M A) (r : result A) (log : list message)
    (calls : list call) : Prop :=
  forall w, m w = (r, extend w log calls).

(** [m] reads nothing of the state: it only adds to it. *)
Definition stateless {A : Type} (m : M A) : Prop :=
  exists r log calls, writes m r log calls.

(** [deployment_info['deployment']['components']], as the loop of [parse]
    iterates over it. *)
Definition components_of (deployment_info : pyval) : result (list pyval) :=
  match getitem deployment_info (Key "deployment") with
  | Raise e => Raise e
  | Ok deployment =>
      match getitem deployment (Key "components") with
      | Raise e => Raise e
      | Ok components => iterate components
      end
  end.


(** The calls of the group loop of [udf.py] for a host, and how the loop
    ends. *)
Fixpoint udf_group_calls (hostname h : pyval) (gs : list string) : list call :=
  match gs with
  | [] => []
  | g :: rest =>
      if String.eqb g "os"
      then match getitem h (Key "osName") with
           | Ok (PStr s) =>
               if String.eqb s "" then []
               else AddGroup (PStr (normalised s))
                    :: AddHost hostname (Some (PStr (normalised s)))
                    :: udf_group_calls hostname h rest
           | _ => []
           end
      else []
  end.

Definition udf_group_result (h : pyval) (gs : list string) : result unit :=
  match gs with
  | [] => Ok tt
  | g :: _ =>
      if String.eqb g "os"
      then match getitem h (Key "osName") with
           | Ok (PStr _) => Ok tt
           | Ok _ => Raise AttributeError
           | Raise _ => Ok tt
           end
      else Ok tt
  end.

(** The same for [udf_inventory.py]. *)
Fixpoint inventory_group_calls (hostname h : pyval) (gs : list string) : list call :=
  match gs with
  | [] => []
  | g :: rest =>
      if String.eqb g "os"
      then if truthy (field h "osName")
           then AddGroup (field h "osName")
                :: AddHost hostname (Some (field h "osName"))
                :: inventory_group_calls hostname h rest
           else []
      else []
  end.

Fixpoint inventory_group_result (h : pyval) (gs : list string) : result unit :=
  match gs with
  | [] => Ok tt
  | g :: rest =>
      if String.eqb g "os"
      then if truthy (field h "osName")
           then inventory_group_result h rest
           else Ok tt
      else Raise (KeyError (PStr g))
  end.

Definition inventory_fill_calls (hostname h : pyval) : list call :=
  (set_if (field h "mgmtIp") hostname "public_ipv4" (field h "mgmtIp")
   ++ set_if (field h "mgmtIp") hostname "private_ipv4" (field h "mgmtIp")
   ++ set_if (port h) hostname "internal_ssh_port" (port h)
   ++ set_if (field h "name") hostname "name" (field h "name")
   ++ set_if (field h "id") hostname "id" (field h "name")
   ++ set_if (field h "osName") hostname "os_name" (field h "osName"))%list.

(** What hostname resolution returns on a record. *)
Definition udf_hostname (h : pyval) (p : string) : result pyval :=
  fst (Udf._filter_host h p empty_world).

Definition inventory_hostname (h : pyval) (prefs : list string) : result pyval :=
  fst (UdfInventory._filter_host h prefs empty_world).

(** What [do_server_inventory] returns and the calls it makes, read off the
    record. *)
Definition udf_record_result (h : pyval) (p : string) (gs : list string) : result unit :=
  match udf_hostname h p with
  | Raise e => Raise e
  | Ok name => if truthy name then udf_group_result h gs else Ok tt
  end.

Definition udf_record_calls (h : pyval) (p : string) (gs : list string) : list call :=
  match udf_hostname h p with
  | Raise _ => []
  | Ok name =>
      if truthy name
      then (AddHost name None :: udf_fill_calls name h ++ udf_group_calls name h gs)%list
      else []
  end.

Definition inventory_record_result (h : pyval) (prefs gs : list string) : result unit :=
  match inventory_hostname h prefs with
  | Raise e => Raise e
  | Ok name => if truthy name then inventory_group_result h gs else Ok tt
  end.

Definition inventory_record_calls (h : pyval) (prefs gs : list string) : list call :=
  match inventory_hostname h prefs with
  | Raise _ => []
  | Ok name =>
      if truthy name
      then (AddHost name None :: inventory_fill_calls name h
              ++ inventory_group_calls name h gs)%list
      else []
  end.

(** How a loop over records ends, and the calls it makes, from what the
    body returns and calls on each record: the loop stops at the first
    record whose body raises. *)
Fixpoint each_result {A : Type} (result_of : A -> result unit) (items : list A)
    : result unit :=
  match items with
  | [] => Ok tt
  | x :: rest =>
      match result_of x with
      | Ok _ => each_result result_of rest
      | Raise e => Raise e
      end
  end.

Fixpoint each_calls {A : Type} (result_of : A -> result unit)
    (calls_of : A -> list call) (items : list A) : list call :=
  match items with
  | [] => []
  | x :: rest =>
      (calls_of x ++
       match result_of x with
       | Ok _ => each_calls result_of calls_of rest
       | Raise _ => []
       end)%list
  end.

(** Calls that add a host to groups: each group is added, then the host is
    added to it, and every group label is present. *)
Inductive group_pairs (name : pyval) : list call -> Prop :=
  | group_pairs_nil : group_pairs name []
  | group_pairs_cons (g : pyval) (rest : list call) :
      truthy g = true -> group_pairs name rest ->
      group_pairs name (AddGroup g :: AddHost name (Some g) :: rest).

(** The calls one record may cause: none, or the registration of a host
    under a present name, then variables of that host, then its groups. *)
Definition record_shape (calls : list call) : Prop :=
  calls = []
  \/ exists name vars groups,
       truthy name = true
       /\ calls = (AddHost name None :: vars ++ groups)%list
       /\ Forall (fun c => exists k v, c = SetVariable name k v) vars
       /\ group_pairs name groups.

(** The hosts registered by a list of calls, one entry for each
    [add_host(host)], in the order of the calls. *)
Definition registered (calls : list call) : list pyval :=
  omap (fun c => match c with AddHost h None => Some h | _ => None end) calls.

(** The hostname a resolution gives, when it gives one. *)
Definition resolved (r : result pyval) : option pyval :=
  match r with
  | Ok name => if truthy name then Some name else None
  | Raise _ => None
  end.

Definition three_components : pyval :=
  PDict [("deployment", PDict [("components", PList [
    PDict [("id", PStr "h2"); ("mgmtIp", PStr "10.0.0.7")];
    PDict [("name", PStr "nameless")];
    PDict [("id", PStr "h1"); ("mgmtIp", PStr "10.0.0.5"); ("osName", PStr "CentOS 7")]])])].

(** Whether a group lists a member whose id is the string [i]. *)
Definition lists_member (rpn : pyval) (i : string) : bool :=
  match getitem rpn (Key "members") with
  | Ok (PList ms) =>
      existsb (fun m => match getitem m (Key "id") with
                        | Ok (PStr j) => String.eqb j i
                        | _ => false
                        end) ms
  | _ => false
  end.

(** A group as the lookup cache expects it: a name, and a list of members
    that each have a string as id. *)
Definition well_formed_group (rpn : pyval) : Prop :=
  exists name ms,
    getitem rpn (Key "name") = Ok name
    /\ getitem rpn (Key "members") = Ok (PList ms)
    /\ Forall (fun m => exists i, getitem m (Key "id") = Ok (PStr i)) ms.

Definition string_keys (d : list (pyval * pyval)) : Prop :=
  Forall (fun kv => exists i, fst kv = PStr i) d.

Definition two_groups : list pyval :=
  [PDict [("name", PStr "front");
          ("members", PList [PDict [("id", PStr "h1")]; PDict [("id", PStr "h2")]])];
   PDict [("name", PStr "back");
          ("members", PList [PDict [("id", PStr "h2")]])]].

Definition two_odd_components : pyval :=
  PDict [("deployment", PDict [("components", PList [
    PDict [("mgmtIp", PStr "10.0.0.5"); ("osName", PStr "CentOS 7");
           ("name", PInt 7); ("accessMethods", PList [])];
    PList [PNone]])])].

(** A value that, when it is there and present, is a string: what a host
    name and a group label have to be for the inventory to take them. *)
Definition string_if_present (r : result pyval) : Prop :=
  forall v, r = Ok v -> truthy v = true -> exists s, v = PStr s.

(** The fields of a record that name a host or label a group hold strings,
    where the record has them. *)
Definition string_fields (h : pyval) : Prop :=
  forall k v, In k ["mgmtIp"; "id"; "osName"] ->
              getitem h (Key k) = Ok v -> exists s, v = PStr s.

Definition plain_host : pyval :=
  PDict [("mgmtIp", PStr "10.0.0.5"); ("osName", PStr "CentOS 7");
         ("name", PInt 7); ("accessMethods", PList [])].

(** * Properties *)

(** ** Subscription raises only what the extractors catch *)

Lemma getitem_Key_raises v k e :
  getitem v (Key k) = Raise e -> e = KeyError (PStr k) \/ e = TypeError.
Proof.
  destruct v; simpl; try (intros [= <-]; auto; fail).
  destruct (dict_get items k); intros [= <-]; auto.
Qed.

Lemma getitem_raises v i e :
  getitem v i = Raise e -> caught lookup_errors e = true.
Proof.
  destruct v, i; simpl; try (intros [= <-]; reflexivity).
  - destruct (seq_index _ _) as [j|]; [destruct (str_at s j)|]; intros [= <-]; reflexivity.
  - destruct (seq_index _ _) as [j|]; [destruct (items !! j)|]; intros [= <-]; reflexivity.
  - destruct (dict_get items k); intros [= <-]; reflexivity.
Qed.

Lemma warned_nil w : warned w [] = w.
Proof. destruct w; unfold warned; simpl; now rewrite app_nil_r. Qed.

Lemma warned_warned w l1 l2 : warned (warned w l1) l2 = warned w (l1 ++ l2).
Proof. unfold warned; simpl; now rewrite app_assoc. Qed.

(** An extractor of one field, whose [except] clause names [KeyError] and
    [TypeError], and warns. *)
Lemma field_extractor_run classes text host_infos k w :
  caught classes (KeyError (PStr k)) = true ->
  caught classes TypeError = true ->
  try_except (lift (getitem host_infos (Key k))) classes
    (fun _ => display_warning text;; mret PNone) w
  = match getitem host_infos (Key k) with
    | Ok v => (Ok v, w)
    | Raise _ => (Ok PNone, warned w [Warning text])
    end.
Proof.
  intros HK HT. unfold try_except, lift.
  destruct (getitem host_infos (Key k)) as [v|e] eqn:E; [reflexivity|].
  apply getitem_Key_raises in E as [-> | ->].
  - rewrite HK. reflexivity.
  - rewrite HT. reflexivity.
Qed.

Lemma field_extractor_total classes text k :
  caught classes (KeyError (PStr k)) = true ->
  caught classes TypeError = true ->
  total (fun host_infos =>
    try_except (lift (getitem host_infos (Key k))) classes
      (fun _ => display_warning text;; mret PNone)).
Proof.
  intros HK HT h.
  pose proof (fun w => field_extractor_run classes text h k w HK HT) as R.
  destruct (getitem h (Key k)) as [v|e].
  - exists v, []. split; [reflexivity|]. intros w.
    now rewrite warned_nil.
  - exists PNone, [Warning text]. split; [discriminate|]. exact R.
Qed.

Lemma total_yields (f : extractor) h v log w :
  f h w = (Ok v, warned w log) -> total f -> yields f h v.
Proof.
  intros E T w'. destruct (T h) as (v' & log' & _ & R).
  rewrite R in E. injection E as <- _. now rewrite R.
Qed.

Lemma yields_fun (f : extractor) h v1 v2 : yields f h v1 -> yields f h v2 -> v1 = v2.
Proof. intros H1 H2. specialize (H1 empty_world). rewrite H2 in H1. congruence. Qed.

Lemma udf_extractors_total p (f : extractor) : Udf.extractors !! p = Some f -> total f.
Proof.
  unfold Udf.extractors. intros H.
  apply lookup_insert_Some in H as [[_ <-] | [_ H]];
    [| apply lookup_singleton_Some in H as [_ <-]];
    apply field_extractor_total; reflexivity.
Qed.

Lemma udf_inventory_extractors_total p (f : extractor) :
  UdfInventory.extractors !! p = Some f -> total f.
Proof.
  unfold UdfInventory.extractors. intros H.
  apply lookup_insert_Some in H as [[_ <-] | [_ H]];
    [| apply lookup_insert_Some in H as [[_ <-] | [_ H]];
       [| apply lookup_singleton_Some in H as [_ <-]]];
    apply field_extractor_total; reflexivity.
Qed.

(** ** Scenario A *)

(** C1. On the payload of scenario A, with hostname preference
    [private_ipv4] and groups [[os]], the pass of [udf.py] ends normally with
    one host, ["10.0.0.5"], in the group ["centos_7"]; its variables are
    [private_ipv4], [name], [id] and [os_name], and the variable [id] holds
    the record's name ["web1"], not its id ["h1"]: [_fill_host_variables]
    tests [extract_id] and then stores the result of [extract_name]. *)
Theorem scenario_A_id_holds_the_name :
  fst scenario_A_pass = Ok tt
  /\ hosts (inventory (snd scenario_A_pass)) = [PStr "10.0.0.5"]
  /\ variables (inventory (snd scenario_A_pass)) (PStr "10.0.0.5")
     = {[ "id" := PStr "web1"; "name" := PStr "web1";
          "os_name" := PStr "CentOS 7"; "private_ipv4" := PStr "10.0.0.5" ]}
  /\ variables (inventory (snd scenario_A_pass)) (PStr "10.0.0.5") !! "id"
     <> Some (PStr "h1")
  /\ groups_of (inventory (snd scenario_A_pass)) = [PStr "centos_7"]
  /\ members (inventory (snd scenario_A_pass)) (PStr "centos_7") = [PStr "10.0.0.5"].
Proof.
  repeat split; try (vm_compute; reflexivity).
  vm_compute. discriminate.
Qed.

(** ** Hostname resolution *)

Ltac run_monad :=
  unfold table_get;
  unfold mbind, M_bind, mret, M_ret, fmap, M_fmap, raise, lift;
  cbv beta iota.

Lemma inventory_filter_host_unknown h p rest w :
  UdfInventory.extractors !! p = None ->
  UdfInventory._filter_host h (p :: rest) w = (Raise (KeyError (PStr p)), w).
Proof. intros H. cbn [UdfInventory._filter_host]. run_monad. rewrite H. reflexivity. Qed.

Lemma inventory_filter_host_known h p rest (f : extractor) v log w :
  UdfInventory.extractors !! p = Some f ->
  (truthy v = true -> log = []) ->
  (forall w, f h w = (Ok v, warned w log)) ->
  UdfInventory._filter_host h (p :: rest) w
  = if truthy v then (Ok v, w)
    else UdfInventory._filter_host h rest (warned w log).
Proof.
  intros H Q R. cbn [UdfInventory._filter_host]. run_monad.
  rewrite H. cbv beta iota. rewrite R.
  destruct (truthy v) eqn:T; [|reflexivity].
  specialize (Q eq_refl). subst log. cbv beta iota.
  rewrite warned_nil, ?H. cbv beta iota. rewrite R, warned_nil. reflexivity.
Qed.

Lemma udf_filter_host_unknown h p w :
  Udf.extractors !! p = None ->
  Udf._filter_host h p w = (Raise (KeyError (PStr p)), w).
Proof. intros H. unfold Udf._filter_host. run_monad. rewrite H. reflexivity. Qed.

Lemma udf_filter_host_known h p (f : extractor) v log w :
  Udf.extractors !! p = Some f ->
  (truthy v = true -> log = []) ->
  (forall w, f h w = (Ok v, warned w log)) ->
  Udf._filter_host h p w
  = if truthy v then (Ok v, w) else (Ok PNone, warned w log).
Proof.
  intros H Q R. unfold Udf._filter_host. run_monad.
  rewrite H. cbv beta iota. rewrite R.
  destruct (truthy v) eqn:T; [|reflexivity].
  specialize (Q eq_refl). subst log. cbv beta iota.
  rewrite warned_nil, ?H. cbv beta iota. rewrite R, warned_nil. reflexivity.
Qed.

Lemma first_present_None candidates :
  first_present candidates = PNone <->
  Forall (fun v => truthy v = false) candidates.
Proof.
  unfold first_present. induction candidates as [|v vs IH]; simpl.
  - split; [constructor | reflexivity].
  - destruct (truthy v) eqn:T; simpl.
    + split.
      * intros ->. discriminate.
      * intros H. inversion H; congruence.
    + rewrite IH. split.
      * intros H. now constructor.
      * intros H. now inversion H.
Qed.

Lemma total_run (f : extractor) h :
  total f ->
  exists v log,
    (truthy v = true -> log = [])
    /\ (forall w, f h w = (Ok v, warned w log))
    /\ yields f h v.
Proof.
  intros T. destruct (T h) as (v & log & Q & R).
  exists v, log. repeat split; try assumption.
  intros w. now rewrite R.
Qed.

Lemma inventory_filter_host_absent h p rest w :
  absent_at UdfInventory.extractors h p ->
  exists log,
    UdfInventory._filter_host h (p :: rest) w
    = UdfInventory._filter_host h rest (warned w log).
Proof.
  intros (v & (f & Hf & Y) & T).
  destruct (total_run f h (udf_inventory_extractors_total _ _ Hf))
    as (v' & log & Q & R & Y').
  assert (v' = v) as -> by (eapply yields_fun; eassumption).
  exists log. rewrite (inventory_filter_host_known h p rest f v log w Hf Q R), T.
  reflexivity.
Qed.

Lemma inventory_filter_host_present h p v rest w :
  value_at UdfInventory.extractors h p v -> truthy v = true ->
  UdfInventory._filter_host h (p :: rest) w = (Ok v, w).
Proof.
  intros (f & Hf & Y) T.
  destruct (total_run f h (udf_inventory_extractors_total _ _ Hf))
    as (v' & log & Q & R & Y').
  assert (v' = v) as -> by (eapply yields_fun; eassumption).
  rewrite (inventory_filter_host_known h p rest f v log w Hf Q R), T.
  reflexivity.
Qed.

(** Hostname resolution changes nothing but the display. *)
Lemma inventory_filter_host_quiet h prefs :
  forall w, exists log,
    snd (UdfInventory._filter_host h prefs w) = warned w log.
Proof.
  induction prefs as [|p rest IH]; intros w.
  - exists []. now rewrite warned_nil.
  - destruct (UdfInventory.extractors !! p) as [f|] eqn:Hf.
    + destruct (total_run f h (udf_inventory_extractors_total _ _ Hf))
        as (v & log & Q & R & Y).
      rewrite (inventory_filter_host_known h p rest f v log w Hf Q R).
      destruct (truthy v).
      * exists []. now rewrite warned_nil.
      * destruct (IH (warned w log)) as [log' E].
        exists (log ++ log')%list. now rewrite E, warned_warned.
    + rewrite inventory_filter_host_unknown by assumption.
      exists []. now rewrite warned_nil.
Qed.

(** Entries that yield nothing present are passed over. *)
Lemma inventory_filter_host_skip h pre :
  Forall (absent_at UdfInventory.extractors h) pre ->
  forall rest w,
    fst (UdfInventory._filter_host h pre w) = Ok PNone
    /\ UdfInventory._filter_host h (pre ++ rest)%list w
       = UdfInventory._filter_host h rest
           (snd (UdfInventory._filter_host h pre w)).
Proof.
  induction 1 as [|p pre A _ IH]; intros rest w.
  - split; reflexivity.
  - destruct A as (v & (f & Hf & Y) & T).
    destruct (total_run f h (udf_inventory_extractors_total _ _ Hf))
      as (v' & log & Q & R & Y').
    assert (v' = v) as -> by (eapply yields_fun; eassumption).
    rewrite <- app_comm_cons.
    rewrite (inventory_filter_host_known h p pre f v log w Hf Q R).
    rewrite (inventory_filter_host_known h p (pre ++ rest) f v log w Hf Q R).
    rewrite T. apply IH.
Qed.

Lemma inventory_filter_host_first h prefs :
  Forall (fun p => is_Some (UdfInventory.extractors !! p)) prefs ->
  exists candidates,
    Forall2 (value_at UdfInventory.extractors h) prefs candidates
    /\ forall w,
         fst (UdfInventory._filter_host h prefs w) = Ok (first_present candidates).
Proof.
  induction 1 as [|p prefs [f Hf] _ (candidates & F & IH)].
  - exists []. split; [constructor | reflexivity].
  - destruct (total_run f h (udf_inventory_extractors_total _ _ Hf))
      as (v & log & Q & R & Y).
    exists (v :: candidates). split.
    + constructor; [exists f; split; assumption | assumption].
    + intros w.
      rewrite (inventory_filter_host_known h p prefs f v log w Hf Q R).
      unfold first_present. simpl. destruct (truthy v); [reflexivity | apply IH].
Qed.

Lemma udf_filter_host_first h p :
  is_Some (Udf.extractors !! p) ->
  exists v,
    value_at Udf.extractors h p v
    /\ forall w, fst (Udf._filter_host h p w) = Ok (first_present [v]).
Proof.
  intros [f Hf].
  destruct (total_run f h (udf_extractors_total _ _ Hf))
    as (v & log & Q & R & Y).
  exists v. split; [exists f; split; assumption|].
  intros w. rewrite (udf_filter_host_known h p f v log w Hf Q R).
  unfold first_present. simpl. destruct (truthy v); reflexivity.
Qed.

(** C5. Presence is what the code tests, the truth value of the extractor's
    result.  For every record and every list of recognised identifiers,
    [_filter_host] of [udf_inventory.py] returns, without raising, the first
    present value among the results of the extractors taken in the order of
    the list, and [None] exactly when none of these results is present; the
    single preference of [udf.py] is the case of a list of one entry. *)
Theorem filter_host_returns_first_present :
  (forall (h : pyval) (prefs : list string) (w : world),
     Forall (fun p => is_Some (UdfInventory.extractors !! p)) prefs ->
     exists candidates,
       Forall2 (value_at UdfInventory.extractors h) prefs candidates
       /\ fst (UdfInventory._filter_host h prefs w) = Ok (first_present candidates)
       /\ (first_present candidates = PNone <->
           Forall (fun v => truthy v = false) candidates))
  /\ (forall (h : pyval) (p : string) (w : world),
        is_Some (Udf.extractors !! p) ->
        exists v,
          value_at Udf.extractors h p v
          /\ fst (Udf._filter_host h p w) = Ok (first_present [v])
          /\ (first_present [v] = PNone <-> truthy v = false)).
Proof.
  split.
  - intros h prefs w K.
    destruct (inventory_filter_host_first h prefs K) as (candidates & F & E).
    exists candidates. repeat split; auto; apply first_present_None.
  - intros h p w K.
    destruct (udf_filter_host_first h p K) as (v & V & E).
    exists v. repeat split; auto.
    + intros N. apply first_present_None in N. now inversion N.
    + intros T. apply first_present_None. now constructor.
Qed.

Lemma filter_host_returns_first_present_witness :
  (exists candidates,
     Forall2 (value_at UdfInventory.extractors two_identities)
       ["hostname"; "private_ipv4"] candidates
     /\ fst (UdfInventory._filter_host two_identities
               ["hostname"; "private_ipv4"] empty_world)
        = Ok (first_present candidates)
     /\ (first_present candidates = PNone <->
         Forall (fun v => truthy v = false) candidates))
  /\ (exists v,
        value_at Udf.extractors two_identities "id" v
        /\ fst (Udf._filter_host two_identities "id" empty_world)
           = Ok (first_present [v])
        /\ (first_present [v] = PNone <-> truthy v = false)).
Proof.
  split.
  - apply (proj1 filter_host_returns_first_present).
    repeat constructor; vm_compute; eauto.
  - apply (proj2 filter_host_returns_first_present).
    vm_compute; eauto.
Defined.

(** Every preference list is passed over entirely, or has a first entry that
    is not passed over: an unrecognised one, or one that yields a present
    value. *)
Lemma preference_list_cases h prefs :
  Forall (absent_at UdfInventory.extractors h) prefs
  \/ exists pre p post,
       prefs = (pre ++ p :: post)%list
       /\ Forall (absent_at UdfInventory.extractors h) pre
       /\ (UdfInventory.extractors !! p = None
           \/ present_at UdfInventory.extractors h p).
Proof.
  induction prefs as [|p prefs IH].
  - left. constructor.
  - assert (absent_at UdfInventory.extractors h p
            \/ UdfInventory.extractors !! p = None
            \/ present_at UdfInventory.extractors h p) as [A | B].
    { destruct (UdfInventory.extractors !! p) as [f|] eqn:Hf; [|auto].
      destruct (total_run f h (udf_inventory_extractors_total _ _ Hf))
        as (v & log & _ & _ & Y).
      destruct (truthy v) eqn:T.
      - right; right. exists v. split; [exists f; auto | assumption].
      - left. exists v. split; [exists f; auto | assumption]. }
    + destruct IH as [IH | (pre & q & post & -> & F & C)].
      * left. now constructor.
      * right. exists (p :: pre), q, post. repeat split; auto.
    + right. exists [], p, prefs. repeat split; auto.
Qed.

(** C3, as stated, fails: on a record with a management address, the
    preference ["bogus"] makes hostname resolution raise [KeyError] in both
    plugins, and nothing is logged. *)
Lemma unknown_identifier_raises_KeyError :
  UdfInventory._filter_host only_management_address ["bogus"] empty_world
  = (Raise (KeyError (PStr "bogus")), empty_world)
  /\ Udf._filter_host only_management_address "bogus" empty_world
     = (Raise (KeyError (PStr "bogus")), empty_world).
Proof. split; vm_compute; reflexivity. Qed.

(** C3, amended.  Hostname resolution looks the identifiers up in order and
    validates none of them.  An unrecognised identifier that is reached, every
    entry before it being recognised and yielding nothing present, makes it
    raise [KeyError] for that identifier; nothing is logged for it, the state
    is the one that resolving over the entries before it leaves.  An entry
    after the first present one is never looked up, recognised or not.
    [None] is returned exactly when every entry is recognised and yields
    nothing present.  In [udf.py], the single preference raises [KeyError]
    when it is unrecognised and leaves the state as it was. *)
Theorem filter_host_unknown_identifier :
  (forall (h : pyval) (pre : list string) (p : string) (post : list string) (w : world),
     Forall (absent_at UdfInventory.extractors h) pre ->
     UdfInventory.extractors !! p = None ->
     UdfInventory._filter_host h (pre ++ p :: post)%list w
     = (Raise (KeyError (PStr p)), snd (UdfInventory._filter_host h pre w)))
  /\ (forall (h : pyval) (pre : list string) (p : string) (v : pyval)
             (post : list string) (w : world),
        Forall (absent_at UdfInventory.extractors h) pre ->
        value_at UdfInventory.extractors h p v -> truthy v = true ->
        fst (UdfInventory._filter_host h (pre ++ p :: post)%list w) = Ok v)
  /\ (forall (h : pyval) (prefs : list string) (w : world),
        fst (UdfInventory._filter_host h prefs w) = Ok PNone <->
        Forall (absent_at UdfInventory.extractors h) prefs)
  /\ (forall (h : pyval) (p : string) (w : world),
        Udf.extractors !! p = None ->
        Udf._filter_host h p w = (Raise (KeyError (PStr p)), w)).
Proof.
  assert (R1 : forall h pre p post w,
    Forall (absent_at UdfInventory.extractors h) pre ->
    UdfInventory.extractors !! p = None ->
    UdfInventory._filter_host h (pre ++ p :: post)%list w
    = (Raise (KeyError (PStr p)), snd (UdfInventory._filter_host h pre w))).
  { intros h pre p post w F U.
    destruct (inventory_filter_host_skip h pre F (p :: post) w) as [_ ->].
    now apply inventory_filter_host_unknown. }
  assert (R2 : forall h pre p v post w,
    Forall (absent_at UdfInventory.extractors h) pre ->
    value_at UdfInventory.extractors h p v -> truthy v = true ->
    fst (UdfInventory._filter_host h (pre ++ p :: post)%list w) = Ok v).
  { intros h pre p v post w F V T.
    destruct (inventory_filter_host_skip h pre F (p :: post) w) as [_ ->].
    now rewrite (inventory_filter_host_present h p v post _ V T). }
  split; [exact R1 | split; [exact R2 | split]].
  - intros h prefs w. split.
    + intros E.
      destruct (preference_list_cases h prefs)
        as [A | (pre & p & post & -> & F & [U | (v & V & T)])]; [assumption | |].
      * rewrite (R1 h pre p post w F U) in E. discriminate.
      * rewrite (R2 h pre p v post w F V T) in E.
        injection E as ->. discriminate.
    + intros F. now destruct (inventory_filter_host_skip h prefs F [] w).
  - intros h p w. apply udf_filter_host_unknown.
Qed.

Lemma filter_host_unknown_identifier_witness :
  UdfInventory._filter_host (PDict []) (["hostname"] ++ "bogus" :: ["private_ipv4"])%list
    empty_world
  = (Raise (KeyError (PStr "bogus")),
     snd (UdfInventory._filter_host (PDict []) ["hostname"] empty_world))
  /\ fst (UdfInventory._filter_host only_management_address
            (["hostname"] ++ "private_ipv4" :: ["bogus"])%list empty_world)
     = Ok (PStr "10.0.0.5")
  /\ fst (UdfInventory._filter_host (PDict []) ["hostname"] empty_world) = Ok PNone
  /\ Udf._filter_host only_management_address "bogus" empty_world
     = (Raise (KeyError (PStr "bogus")), empty_world).
Proof.
  assert (A : forall h, getitem h (Key "id") = Raise (KeyError (PStr "id")) ->
            Forall (absent_at UdfInventory.extractors h) ["hostname"]).
  { intros h E. repeat constructor. exists PNone. split; [|reflexivity].
    exists UdfInventory.extract_hostname. split; [reflexivity|].
    intros w. unfold UdfInventory.extract_hostname.
    rewrite field_extractor_run, E by reflexivity. reflexivity. }
  destruct filter_host_unknown_identifier as (T1 & T2 & T3 & T4).
  split; [| split; [| split]].
  - apply T1; [apply A; reflexivity | reflexivity].
  - apply T2; [apply A; reflexivity | | reflexivity].
    exists UdfInventory.extract_private_ipv4. split; [reflexivity|].
    intros w. unfold UdfInventory.extract_private_ipv4.
    rewrite field_extractor_run by reflexivity. reflexivity.
  - apply T3. apply A. reflexivity.
  - apply T4. reflexivity.
Defined.

(** ** Records with no resolvable hostname *)

Lemma inventory_filter_host_truthy h prefs w v :
  fst (UdfInventory._filter_host h prefs w) = Ok v -> truthy v = true ->
  Exists (present_at UdfInventory.extractors h) prefs.
Proof.
  intros E T.
  destruct (preference_list_cases h prefs)
    as [A | (pre & p & post & -> & F & [U | P])].
  - destruct (inventory_filter_host_skip h prefs A [] w) as [N _].
    rewrite N in E. injection E as <-. discriminate.
  - destruct (inventory_filter_host_skip h pre F (p :: post) w) as [_ S].
    rewrite S, inventory_filter_host_unknown in E by assumption. discriminate.
  - apply Exists_app. right. now constructor.
Qed.

Lemma udf_filter_host_quiet h p w :
  exists log, snd (Udf._filter_host h p w) = warned w log.
Proof.
  destruct (Udf.extractors !! p) as [f|] eqn:Hf.
  - destruct (total_run f h (udf_extractors_total _ _ Hf))
      as (v & log & Q & R & Y).
    rewrite (udf_filter_host_known h p f v log w Hf Q R).
    destruct (truthy v); [exists [] | exists log]; now rewrite ?warned_nil.
  - rewrite udf_filter_host_unknown by assumption.
    exists []. now rewrite warned_nil.
Qed.

Lemma udf_filter_host_truthy h p w v :
  fst (Udf._filter_host h p w) = Ok v -> truthy v = true ->
  present_at Udf.extractors h p.
Proof.
  intros E T. destruct (Udf.extractors !! p) as [f|] eqn:Hf.
  - destruct (total_run f h (udf_extractors_total _ _ Hf))
      as (v' & log & Q & R & Y).
    rewrite (udf_filter_host_known h p f v' log w Hf Q R) in E.
    destruct (truthy v') eqn:T'.
    + exists v'. split; [exists f; auto | assumption].
    + injection E as <-. discriminate.
  - rewrite udf_filter_host_unknown in E by assumption. discriminate.
Qed.

Lemma inventory_skipped_record h prefs gs w :
  Forall (fun p => ~ present_at UdfInventory.extractors h p) prefs ->
  inventory (snd (UdfInventory.do_server_inventory h prefs gs w)) = inventory w.
Proof.
  intros N. unfold UdfInventory.do_server_inventory. run_monad.
  destruct (inventory_filter_host_quiet h prefs w) as [log Q].
  destruct (UdfInventory._filter_host h prefs w) as [[v|e] w'] eqn:E;
    simpl in Q; subst w'; [|reflexivity].
  destruct (truthy v) eqn:T; [|reflexivity].
  exfalso.
  assert (X : Exists (present_at UdfInventory.extractors h) prefs).
  { apply (inventory_filter_host_truthy h prefs w v); [now rewrite E | assumption]. }
  apply Exists_exists in X as (p & I & P).
  rewrite Forall_forall in N. exact (N p I P).
Qed.

Lemma udf_skipped_record h p gs w :
  ~ present_at Udf.extractors h p ->
  inventory (snd (Udf.do_server_inventory h p gs w)) = inventory w.
Proof.
  intros N. unfold Udf.do_server_inventory. run_monad.
  destruct (udf_filter_host_quiet h p w) as [log Q].
  destruct (Udf._filter_host h p w) as [[v|e] w'] eqn:E;
    simpl in Q; subst w'; [|reflexivity].
  destruct (truthy v) eqn:T; [|reflexivity].
  exfalso. apply N.
  apply (udf_filter_host_truthy h p w v); [now rewrite E | assumption].
Qed.

(** C6. When no entry of the hostname-preference list yields a present
    value on a record, processing the record leaves the inventory as it was:
    it receives no call, so no host is registered, no variable set, no group
    or membership added.  This holds for the list of [udf_inventory.py] and
    for the single preference of [udf.py], whether resolution returns [None]
    or is cut short by an unrecognised identifier. *)
Theorem unresolved_record_adds_nothing :
  (forall (h : pyval) (prefs gs : list string) (w : world),
     Forall (fun p => ~ present_at UdfInventory.extractors h p) prefs ->
     inventory (snd (UdfInventory.do_server_inventory h prefs gs w)) = inventory w)
  /\ (forall (h : pyval) (p : string) (gs : list string) (w : world),
        ~ present_at Udf.extractors h p ->
        inventory (snd (Udf.do_server_inventory h p gs w)) = inventory w).
Proof.
  split.
  - apply inventory_skipped_record.
  - apply udf_skipped_record.
Qed.

Lemma present_at_now table h p : present_at table h p -> present_now table h p = true.
Proof.
  intros (v & (f & Hf & Y) & T). unfold present_now.
  rewrite Hf. simpl. now rewrite (Y empty_world).
Qed.

Lemma unresolved_record_adds_nothing_witness :
  inventory (snd (UdfInventory.do_server_inventory no_identity
                    ["private_ipv4"; "hostname"] ["os"] empty_world))
  = inventory empty_world
  /\ inventory (snd (Udf.do_server_inventory no_identity "id" ["os"] empty_world))
     = inventory empty_world.
Proof.
  split.
  - apply (proj1 unresolved_record_adds_nothing).
    repeat constructor; intros P; apply present_at_now in P;
      vm_compute in P; discriminate.
  - apply (proj2 unresolved_record_adds_nothing).
    intros P; apply present_at_now in P; vm_compute in P; discriminate.
Defined.

(** ** The [os] group dimension *)

Lemma udf_group_os :
  Udf.group_extractors !! "os" = Some (Udf.extract_os_name_for_group : extractor).
Proof. apply lookup_singleton_eq. Qed.

Lemma udf_inventory_group_os :
  UdfInventory.group_extractors !! "os"
  = Some (UdfInventory.extract_os_name : extractor).
Proof. apply lookup_singleton_eq. Qed.

Lemma udf_group_known g (f : extractor) :
  Udf.group_extractors !! g = Some f ->
  g = "os" /\ f = Udf.extract_os_name_for_group.
Proof.
  unfold Udf.group_extractors. intros H.
  apply lookup_singleton_Some in H as [<- <-]. split; reflexivity.
Qed.

Lemma udf_group_unknown g : g <> "os" -> Udf.group_extractors !! g = None.
Proof. intros N. apply lookup_singleton_None. congruence. Qed.

Lemma normalised_empty s : normalised s = "" <-> s = "".
Proof.
  unfold normalised. destruct s; simpl; split; intros H;
    try reflexivity; discriminate.
Qed.

Lemma truthy_PStr s : truthy (PStr s) = negb (String.eqb s "").
Proof. reflexivity. Qed.

Lemma truthy_PStr_nonempty s : s <> "" -> truthy (PStr s) = true.
Proof.
  intros N. simpl. destruct (String.eqb_spec s ""); [contradiction | reflexivity].
Qed.

Lemma udf_os_name_for_group_string h s w :
  getitem h (Key "osName") = Ok (PStr s) ->
  Udf.extract_os_name_for_group h w = (Ok (PStr (normalised s)), w).
Proof.
  intros E. unfold Udf.extract_os_name_for_group, try_except. run_monad.
  rewrite E. reflexivity.
Qed.

Lemma udf_assign_groups_os hostname h s rest w :
  getitem h (Key "osName") = Ok (PStr s) ->
  Udf.assign_groups hostname h ("os" :: rest) w
  = if String.eqb s ""
    then (Ok tt, w)
    else Udf.assign_groups hostname h rest
           (World (display w)
              (inventory w ++ [AddGroup (PStr (normalised s));
                               AddHost hostname (Some (PStr (normalised s)))])).
Proof.
  intros E. cbn [Udf.assign_groups]. rewrite udf_group_os. run_monad.
  rewrite udf_group_os. cbv beta iota.
  rewrite (udf_os_name_for_group_string h s w E).
  destruct (String.eqb_spec s "") as [-> | N].
  - reflexivity.
  - rewrite truthy_PStr_nonempty by (rewrite normalised_empty; assumption).
    unfold inventory_add_group, inventory_add_host, invoke. simpl.
    now rewrite <- app_assoc.
Qed.






(** ** Attribute fill *)

Lemma warned_extend w log : warned w log = extend w log [].
Proof. unfold warned, extend. now rewrite app_nil_r. Qed.

Lemma extend_nil w : extend w [] [] = w.
Proof. destruct w. unfold extend. simpl. now rewrite !app_nil_r. Qed.

Lemma extend_extend w l1 c1 l2 c2 :
  extend (extend w l1 c1) l2 c2 = extend w (l1 ++ l2) (c1 ++ c2).
Proof. unfold extend. simpl. now rewrite !app_assoc. Qed.

(** One block [if test(h): set_variable(hostname, k, value(h))], followed by
    the rest of the method. *)
Lemma guarded_set_then (test value : extractor) hostname k h (rest : M unit)
    vt lt vv lv w :
  (forall w, test h w = (Ok vt, warned w lt)) ->
  (forall w, value h w = (Ok vv, warned w lv)) ->
  (x ← test h;
   (if truthy x
    then v ← value h; inventory_set_variable hostname k v
    else mret tt);; rest) w
  = rest (extend w (lt ++ (if truthy vt then lv else [])) (set_if vt hostname k vv)).
Proof.
  intros Rt Rv. run_monad. rewrite Rt. unfold set_if.
  destruct (truthy vt); cbv beta iota.
  - rewrite Rv. unfold inventory_set_variable, invoke. cbv beta iota.
    f_equal. unfold warned, extend. simpl. now rewrite app_assoc.
  - f_equal. unfold warned, extend. simpl. now rewrite !app_nil_r.
Qed.

Lemma guarded_set_last (test value : extractor) hostname k h vt lt vv lv w :
  (forall w, test h w = (Ok vt, warned w lt)) ->
  (forall w, value h w = (Ok vv, warned w lv)) ->
  (x ← test h;
   if truthy x
   then v ← value h; inventory_set_variable hostname k v
   else mret tt) w
  = (Ok tt, extend w (lt ++ (if truthy vt then lv else [])) (set_if vt hostname k vv)).
Proof.
  intros Rt Rv. run_monad. rewrite Rt. unfold set_if.
  destruct (truthy vt); cbv beta iota.
  - rewrite Rv. unfold inventory_set_variable, invoke. cbv beta iota.
    f_equal. unfold warned, extend. simpl. now rewrite app_assoc.
  - f_equal. unfold warned, extend. simpl. now rewrite !app_nil_r.
Qed.

Lemma field_extractor_value classes text h k w :
  caught classes (KeyError (PStr k)) = true ->
  caught classes TypeError = true ->
  try_except (lift (getitem h (Key k))) classes
    (fun _ => display_warning text;; mret PNone) w
  = (Ok (field h k), warned w (field_log h k text)).
Proof.
  intros HK HT. rewrite field_extractor_run by assumption.
  unfold field, field_log. destruct (getitem h (Key k)); [|reflexivity].
  now rewrite warned_nil.
Qed.

Lemma udf_internal_ssh_port_run h w :
  Udf.extract_internal_ssh_port h w = (Ok (port h), w).
Proof.
  unfold Udf.extract_internal_ssh_port, try_except, port, internal_port_path.
  run_monad.
  destruct (getitem h (Key "accessMethods")) as [a|e] eqn:E1;
    [| now rewrite (getitem_raises _ _ _ E1)].
  destruct (getitem a (Key "ssh")) as [s|e] eqn:E2;
    [| now rewrite (getitem_raises _ _ _ E2)].
  destruct (getitem s (Idx 0)) as [f|e] eqn:E3;
    [| now rewrite (getitem_raises _ _ _ E3)].
  destruct (getitem f (Key "internalPort")) as [v|e] eqn:E4;
    [reflexivity | now rewrite (getitem_raises _ _ _ E4)].
Qed.

Lemma udf_fill_host_variables_run hostname h w :
  exists log,
    Udf._fill_host_variables hostname h w
    = (Ok tt, extend w log (udf_fill_calls hostname h)).
Proof.
  pose proof (fun w => field_extractor_value lookup_errors _ h "mgmtIp" w eq_refl eq_refl
              : Udf.extract_private_ipv4 h w = _) as Ra.
  pose proof (fun w => eq_trans (udf_internal_ssh_port_run h w)
                         (f_equal (pair (Ok (port h))) (eq_sym (warned_nil w)))) as Rp.
  pose proof (fun w => field_extractor_value key_errors _ h "name" w eq_refl eq_refl
              : Udf.extract_name h w = _) as Rn.
  pose proof (fun w => field_extractor_value key_errors _ h "id" w eq_refl eq_refl
              : Udf.extract_id h w = _) as Ri.
  pose proof (fun w => field_extractor_value key_errors _ h "osName" w eq_refl eq_refl
              : Udf.extract_os_name h w = _) as Ro.
  unfold Udf._fill_host_variables.
  rewrite (guarded_set_then _ _ hostname "private_ipv4" h _ _ _ _ _ w Ra Ra).
  rewrite (guarded_set_then _ _ hostname "internal_ssh_port" h _ _ _ _ _ _ Rp Rp).
  rewrite (guarded_set_then _ _ hostname "name" h _ _ _ _ _ _ Rn Rn).
  rewrite (guarded_set_then _ _ hostname "id" h _ _ _ _ _ _ Ri Rn).
  rewrite (guarded_set_last _ _ hostname "os_name" h _ _ _ _ _ Ro Ro).
  rewrite !extend_extend. eexists. unfold udf_fill_calls.
  rewrite !app_assoc. reflexivity.
Qed.

(** ** Group assignment *)

Lemma udf_os_name_for_group_run h w :
  Udf.extract_os_name_for_group h w
  = match getitem h (Key "osName") with
    | Ok (PStr s) => (Ok (PStr (normalised s)), w)
    | Ok _ => (Raise AttributeError, w)
    | Raise _ =>
        (Ok PNone,
         warned w [Warning "An error happened while extracting OS name for group. Information skipped."])
    end.
Proof.
  unfold Udf.extract_os_name_for_group, try_except. run_monad.
  destruct (getitem h (Key "osName")) as [v|e] eqn:E.
  - destruct v; reflexivity.
  - apply getitem_Key_raises in E as [-> | ->]; reflexivity.
Qed.

Lemma udf_assign_groups_calls hostname h gs :
  forall w, exists log calls,
    snd (Udf.assign_groups hostname h gs w) = extend w log calls
    /\ Forall (fun c => ~ is_SetVariable c) calls.
Proof.
  induction gs as [|g gs IH]; intros w.
  - exists [], []. split; [now rewrite extend_nil | constructor].
  - cbn [Udf.assign_groups].
    destruct (Udf.group_extractors !! g) as [f|] eqn:Hf.
    + run_monad. rewrite Hf. cbv beta iota.
      apply udf_group_known in Hf as [_ ->].
      rewrite udf_os_name_for_group_run.
      destruct (getitem h (Key "osName")) as [v|e].
      * destruct v; try (exists [], []; split; [now rewrite extend_nil | constructor]).
        destruct (truthy (PStr (normalised s))); cbn [negb]; cbv beta iota.
        -- unfold inventory_add_group, inventory_add_host, invoke.
           cbn [negb display inventory]. cbv beta iota.
           match goal with |- context [Udf.assign_groups _ _ _ ?w'] =>
             destruct (IH w') as (log & calls & E & F) end.
           exists log, (AddGroup (PStr (normalised s))
                        :: AddHost hostname (Some (PStr (normalised s))) :: calls).
           split.
           ++ rewrite E. unfold extend. simpl. now rewrite <- !app_assoc.
           ++ repeat constructor; auto.
        -- exists [], []. split; [now rewrite extend_nil | constructor].
      * eexists _, []. split; [apply warned_extend | constructor].
    + exists [Warning ("Invalid group name '" ++ g ++ "' specified.")], [].
      split; [|constructor].
      unfold display_warning, extend. cbn [snd]. now rewrite app_nil_r.
Qed.

Lemma udf_filter_host_resolved h p w name :
  fst (Udf._filter_host h p w) = Ok name -> truthy name = true ->
  Udf._filter_host h p w = (Ok name, w).
Proof.
  intros E T. destruct (Udf.extractors !! p) as [f|] eqn:Hf.
  - destruct (total_run f h (udf_extractors_total _ _ Hf))
      as (v & log & Q & R & Y).
    rewrite (udf_filter_host_known h p f v log w Hf Q R) in E |- *.
    destruct (truthy v); [simpl in E; congruence|].
    injection E as <-. discriminate.
  - rewrite udf_filter_host_unknown in E by assumption. discriminate.
Qed.

(** A record whose hostname resolves: the host is registered, its attributes
    are filled, and only then are groups assigned. *)
Lemma udf_registered_record h p gs w name :
  fst (Udf._filter_host h p w) = Ok name -> truthy name = true ->
  exists log calls,
    snd (Udf.do_server_inventory h p gs w)
    = extend w log (AddHost name None :: udf_fill_calls name h ++ calls)%list
    /\ Forall (fun c => ~ is_SetVariable c) calls.
Proof.
  intros E T. unfold Udf.do_server_inventory. run_monad.
  rewrite (udf_filter_host_resolved h p w name E T), T. cbv beta iota.
  unfold inventory_add_host, invoke. cbn [negb]. cbv beta iota.
  match goal with |- context [Udf._fill_host_variables name h ?w'] =>
    destruct (udf_fill_host_variables_run name h w') as [log1 ->] end.
  match goal with |- context [Udf.assign_groups name h gs ?w'] =>
    destruct (udf_assign_groups_calls name h gs w') as (log2 & calls & S & F) end.
  exists (log1 ++ log2)%list, calls. split; [|exact F].
  cbv beta iota in S |- *. rewrite S. unfold extend. simpl.
  now rewrite <- !app_assoc.
Qed.

(** ** The SSH port *)

Lemma In_set_if test hostname k v : truthy test = true ->
  In (SetVariable hostname k v) (set_if test hostname k v).
Proof. intros T. unfold set_if. rewrite T. now left. Qed.

Lemma set_if_varname test hostname k v entity k' v' :
  In (SetVariable entity k' v') (set_if test hostname k v) -> k' = k.
Proof.
  unfold set_if. destruct (truthy test); [|contradiction].
  intros [[= _ <- _] | []]. reflexivity.
Qed.

Lemma udf_fill_calls_without_port hostname h e :
  internal_port_path h = Raise e ->
  forall entity v, ~ In (SetVariable entity "internal_ssh_port" v) (udf_fill_calls hostname h).
Proof.
  intros P entity v. unfold udf_fill_calls, port. rewrite P.
  rewrite !in_app_iff.
  intros [I | [I | [I | [I | I]]]];
    try (apply set_if_varname in I; discriminate).
  exact I.
Qed.

(** C9. The record of Scenario A, with access methods that hold no [ssh]:
    the path to the SSH port cannot be followed.  With preference
    [private_ipv4] and groups [[os]] the host is registered, nothing is
    displayed and no variable [internal_ssh_port] is set; [private_ipv4],
    [name] and [os_name] hold the fields of the record, but the variable [id]
    holds ["web1"], the name, while the [id] of the record is ["h1"]. *)
Theorem host_without_ssh_port_gets_its_name_as_id :
  internal_port_path ssh_absent_host = Raise (KeyError (PStr "ssh"))
  /\ Udf.do_server_inventory ssh_absent_host "private_ipv4" ["os"] empty_world
     = (Ok tt,
        World []
          [AddHost (PStr "10.0.0.5") None;
           SetVariable (PStr "10.0.0.5") "private_ipv4" (PStr "10.0.0.5");
           SetVariable (PStr "10.0.0.5") "name" (PStr "web1");
           SetVariable (PStr "10.0.0.5") "id" (PStr "web1");
           SetVariable (PStr "10.0.0.5") "os_name" (PStr "CentOS 7");
           AddGroup (PStr "centos_7");
           AddHost (PStr "10.0.0.5") (Some (PStr "centos_7"))])
  /\ getitem ssh_absent_host (Key "id") = Ok (PStr "h1").
Proof. repeat split; vm_compute; reflexivity. Qed.

(** X18. [extract_internal_ssh_port] of [udf.py] never raises and never
    writes to the display; when the path
    [accessMethods.ssh[0].internalPort] cannot be followed it returns [None].
    For such a record whose hostname resolves to a string, the calls the
    inventory receives start with the registration of the host; none of them
    sets [internal_ssh_port]; [private_ipv4], [name] and [os_name] are set to
    what their extractors return whenever that is present; and when the
    record has an [id], the variable [id] is set to what [extract_name]
    returns.  Every other extractor warns when its lookup fails. *)
Theorem missing_ssh_port_is_silent :
  (forall (h : pyval) (w : world),
     exists v, Udf.extract_internal_ssh_port h w = (Ok v, w))
  /\ (forall (h : pyval) (e : exn) (w : world),
        internal_port_path h = Raise e ->
        Udf.extract_internal_ssh_port h w = (Ok PNone, w))
  /\ (forall (h : pyval) (e : exn) (p : string) (gs : list string) (w : world)
             (n : string),
        internal_port_path h = Raise e ->
        fst (Udf._filter_host h p w) = Ok (PStr n) -> n <> "" ->
        exists calls,
          inventory (snd (Udf.do_server_inventory h p gs w))
          = (inventory w ++ AddHost (PStr n) None :: calls)%list
          /\ (forall entity v, ~ In (SetVariable entity "internal_ssh_port" v) calls)
          /\ (forall v, fst (Udf.extract_private_ipv4 h w) = Ok v -> truthy v = true ->
              In (SetVariable (PStr n) "private_ipv4" v) calls)
          /\ (forall v, fst (Udf.extract_name h w) = Ok v -> truthy v = true ->
              In (SetVariable (PStr n) "name" v) calls)
          /\ (forall i v, fst (Udf.extract_id h w) = Ok i -> truthy i = true ->
              fst (Udf.extract_name h w) = Ok v ->
              In (SetVariable (PStr n) "id" v) calls)
          /\ (forall v, fst (Udf.extract_os_name h w) = Ok v -> truthy v = true ->
              In (SetVariable (PStr n) "os_name" v) calls))
  /\ (forall (h : pyval) (e : exn) (w : world),
        (getitem h (Key "mgmtIp") = Raise e ->
         exists text, Udf.extract_private_ipv4 h w = (Ok PNone, warned w [Warning text]))
        /\ (getitem h (Key "name") = Raise e ->
            exists text, Udf.extract_name h w = (Ok PNone, warned w [Warning text]))
        /\ (getitem h (Key "id") = Raise e ->
            exists text, Udf.extract_id h w = (Ok PNone, warned w [Warning text]))
        /\ (getitem h (Key "osName") = Raise e ->
            exists text, Udf.extract_os_name h w = (Ok PNone, warned w [Warning text]))
        /\ (getitem h (Key "osName") = Raise e ->
            exists text,
              Udf.extract_os_name_for_group h w = (Ok PNone, warned w [Warning text]))).
Proof.
  split; [| split; [| split]].
  - intros h w. exists (port h). apply udf_internal_ssh_port_run.
  - intros h e w P. rewrite udf_internal_ssh_port_run. unfold port. now rewrite P.
  - intros h e p gs w n P E N.
    pose proof (truthy_PStr_nonempty n N) as T.
    destruct (udf_registered_record h p gs w (PStr n) E T) as (log & calls & S & F).
    exists (udf_fill_calls (PStr n) h ++ calls)%list.
    split; [now rewrite S | split; [| split; [| split; [| split]]]].
    + intros entity v I. apply in_app_iff in I as [I | I].
      * exact (udf_fill_calls_without_port (PStr n) h e P entity v I).
      * pose proof (proj1 (List.Forall_forall _ _) F _ I) as N'.
        apply N'. exact Logic.I.
    + intros v V Tv. unfold Udf.extract_private_ipv4 in V.
      rewrite field_extractor_value in V by reflexivity. injection V as <-.
      apply in_app_iff. left. unfold udf_fill_calls.
      rewrite !in_app_iff. left. now apply In_set_if.
    + intros v V Tv. unfold Udf.extract_name in V.
      rewrite field_extractor_value in V by reflexivity. injection V as <-.
      apply in_app_iff. left. unfold udf_fill_calls.
      rewrite !in_app_iff. right; right; left. now apply In_set_if.
    + intros i v I Ti V. unfold Udf.extract_id in I. unfold Udf.extract_name in V.
      rewrite field_extractor_value in I by reflexivity.
      rewrite field_extractor_value in V by reflexivity.
      injection I as <-. injection V as <-.
      apply in_app_iff. left. unfold udf_fill_calls.
      rewrite !in_app_iff. right; right; right; left. now apply In_set_if.
    + intros v V Tv. unfold Udf.extract_os_name in V.
      rewrite field_extractor_value in V by reflexivity. injection V as <-.
      apply in_app_iff. left. unfold udf_fill_calls.
      rewrite !in_app_iff. right; right; right; right. now apply In_set_if.
  - intros h e w. repeat apply conj; intros G; eexists.
    + unfold Udf.extract_private_ipv4.
      rewrite field_extractor_run, G by reflexivity. reflexivity.
    + unfold Udf.extract_name.
      rewrite field_extractor_run, G by reflexivity. reflexivity.
    + unfold Udf.extract_id.
      rewrite field_extractor_run, G by reflexivity. reflexivity.
    + unfold Udf.extract_os_name.
      rewrite field_extractor_run, G by reflexivity. reflexivity.
    + rewrite udf_os_name_for_group_run, G. reflexivity.
Qed.

Lemma missing_ssh_port_is_silent_witness :
  Udf.extract_internal_ssh_port no_access_methods empty_world = (Ok PNone, empty_world)
  /\ Udf.extract_internal_ssh_port empty_ssh_list empty_world = (Ok PNone, empty_world)
  /\ (exists calls,
        inventory (snd (Udf.do_server_inventory no_access_methods "private_ipv4"
                          ["os"] empty_world))
        = (inventory empty_world ++ AddHost (PStr "10.0.0.5") None :: calls)%list
        /\ (forall entity v, ~ In (SetVariable entity "internal_ssh_port" v) calls)
        /\ In (SetVariable (PStr "10.0.0.5") "id" (PStr "web1")) calls)
  /\ (exists text,
        Udf.extract_name (PDict []) empty_world
        = (Ok PNone, warned empty_world [Warning text])).
Proof.
  destruct missing_ssh_port_is_silent as (_ & T2 & T3 & T4).
  split; [| split; [| split]].
  - apply (T2 no_access_methods (KeyError (PStr "accessMethods"))). reflexivity.
  - apply (T2 empty_ssh_list IndexError). reflexivity.
  - destruct (T3 no_access_methods (KeyError (PStr "accessMethods")) "private_ipv4"
                ["os"] empty_world "10.0.0.5")
      as (calls & A & B & _ & _ & C & _).
    + reflexivity.
    + vm_compute. reflexivity.
    + discriminate.
    + exists calls. split; [exact A | split; [exact B |]].
      apply (C (PStr "h1") (PStr "web1")); vm_compute; reflexivity.
  - destruct (T4 (PDict []) (KeyError (PStr "name")) empty_world) as (_ & N & _).
    apply N. reflexivity.
Defined.

(** ** Where the group loop stops *)

Lemma udf_assign_groups_unknown hostname h g rest w :
  g <> "os" ->
  Udf.assign_groups hostname h (g :: rest) w
  = (Ok tt, warned w [Warning ("Invalid group name '" ++ g ++ "' specified.")]).
Proof.
  intros N. cbn [Udf.assign_groups]. now rewrite (udf_group_unknown g N).
Qed.

Lemma udf_inventory_assign_groups_unknown hostname h g rest w :
  g <> "os" ->
  UdfInventory.assign_groups hostname h (g :: rest) w
  = (Raise (KeyError (PStr g)), w).
Proof.
  intros N. cbn [UdfInventory.assign_groups]. run_monad.
  assert (UdfInventory.group_extractors !! g = None) as ->; [|reflexivity].
  apply lookup_singleton_None. congruence.
Qed.

(** C2. The group loop of [udf.py] leaves the method at the first dimension
    it skips.  With groups [["bogus"; "os"]] the unknown name is reported and
    the host, registered, ends in no group, although [["os"]] alone puts it
    in ["centos_7"].  With groups [["os"; "bogus"]] on a record without
    [osName], the only messages are the two about the OS name: the dimension
    after the absent one is never looked at.  In [udf_inventory.py] an
    unknown dimension is not reported: it raises [KeyError]. *)
Theorem group_loop_stops_at_first_skip :
  Udf.do_server_inventory centos_host "private_ipv4" ["bogus"; "os"] empty_world
  = (Ok tt,
     World [Warning "Invalid group name 'bogus' specified."]
       [AddHost (PStr "10.0.0.5") None;
        SetVariable (PStr "10.0.0.5") "private_ipv4" (PStr "10.0.0.5");
        SetVariable (PStr "10.0.0.5") "name" (PStr "web1");
        SetVariable (PStr "10.0.0.5") "id" (PStr "web1");
        SetVariable (PStr "10.0.0.5") "os_name" (PStr "CentOS 7")])
  /\ members (inventory (snd (Udf.do_server_inventory centos_host "private_ipv4"
                               ["bogus"; "os"] empty_world))) (PStr "centos_7")
     = []
  /\ members (inventory (snd (Udf.do_server_inventory centos_host "private_ipv4"
                               ["os"] empty_world))) (PStr "centos_7")
     = [PStr "10.0.0.5"]
  /\ display (snd (Udf.do_server_inventory host_without_os "private_ipv4"
                     ["os"; "bogus"] empty_world))
     = [Warning "An error happened while extracting OS name. Information skipped.";
        Warning "An error happened while extracting OS name for group. Information skipped."]
  /\ fst (UdfInventory.do_server_inventory centos_host ["private_ipv4"]
            ["bogus"; "os"] empty_world)
     = Raise (KeyError (PStr "bogus")).
Proof.
  split; [| split; [| split; [| split]]]; vm_compute; reflexivity.
Qed.

(** ** A non-string OS name *)

Lemma udf_os_name_for_group_not_a_string h v w :
  getitem h (Key "osName") = Ok v -> (forall s, v <> PStr s) ->
  Udf.extract_os_name_for_group h w = (Raise AttributeError, w).
Proof.
  intros E N. rewrite udf_os_name_for_group_run, E.
  destruct v; try reflexivity. now destruct (N s).
Qed.

Lemma udf_inventory_deployment_total : total UdfInventory.extract_deployment.
Proof.
  intros h. unfold UdfInventory.extract_deployment, try_except. run_monad.
  destruct (getitem h (Key "deployment")) as [d|e] eqn:E1.
  - destruct (getitem d (Key "id")) as [v|e] eqn:E2.
    + exists v, []. split; [reflexivity|]. intros w. now rewrite warned_nil.
    + eexists PNone, [_]. split; [discriminate|]. intros w.
      apply getitem_Key_raises in E2 as [-> | ->]; reflexivity.
  - eexists PNone, [_]. split; [discriminate|]. intros w.
    apply getitem_Key_raises in E1 as [-> | ->]; reflexivity.
Qed.

(** X15. Every extractor of the two plugins but [extract_os_name_for_group]
    returns on every record, whatever its shape: it never raises, it leaves
    the inventory alone, and it warns only when the value it returns is not
    present. *)
Lemma other_extractors_never_raise :
  total Udf.extract_private_ipv4 /\ total Udf.extract_internal_ssh_port
  /\ total Udf.extract_name /\ total Udf.extract_id /\ total Udf.extract_os_name
  /\ total UdfInventory.extract_public_ipv4
  /\ total UdfInventory.extract_private_ipv4
  /\ total UdfInventory.extract_internal_ssh_port
  /\ total UdfInventory.extract_name /\ total UdfInventory.extract_id
  /\ total UdfInventory.extract_os_name /\ total UdfInventory.extract_hostname
  /\ total UdfInventory.extract_deployment.
Proof.
  repeat apply conj; try (apply field_extractor_total; reflexivity);
    try apply udf_inventory_deployment_total;
    intros h; exists (port h), []; (split; [reflexivity|]);
    intros w; rewrite warned_nil; exact (udf_internal_ssh_port_run h w).
Qed.

(** C4. On a record whose [osName] is the number [7],
    [extract_os_name_for_group] of [udf.py] raises [AttributeError] to its
    caller: a number has no [replace], and the [except] clause names only
    [KeyError] and [TypeError]. *)
Theorem os_name_for_group_raises_on_a_number :
  Udf.extract_os_name_for_group numeric_os_host empty_world
  = (Raise AttributeError, empty_world)
  /\ caught key_errors AttributeError = false.
Proof. split; reflexivity. Qed.

(** ** The fetch, and what aborts a pass *)

(** When the fetch fails, the inventory receives no call: a transport failure
    is reported twice on the display and the pass returns; a body that is not
    JSON, which a body that is not UTF-8 is too, raises [AnsibleError]. *)
Lemma udf_fetch_failure net config w :
  (forall e, net servers_url = Raise e ->
     Udf.parse net config w
     = (Ok tt,
        World (display w ++
               [Error ("An error happened while fetching: " ++ servers_url ++ " " ++ to_native e);
                Error "Error occurred. No inventory could be fetched from UDF API."])
          (inventory w)))
  /\ (net servers_url = Ok NotText ->
      Udf.parse net config w = (Raise (AnsibleError "Incorrect JSON payload"), w))
  /\ (net servers_url = Ok NotJson ->
      Udf.parse net config w = (Raise (AnsibleError "Incorrect JSON payload"), w)).
Proof.
  unfold Udf.parse, Udf._fetch_information, try_except, open_url, display_error.
  run_monad. repeat apply conj.
  - intros e ->. simpl. now rewrite <- app_assoc.
  - intros ->. reflexivity.
  - intros ->. reflexivity.
Qed.

(** C8. A payload that was fetched and decoded, whose first of two records
    has the number [7] as [osName]: with groups [[os]] the pass of [udf.py]
    ends with [AttributeError], after the first host was registered with its
    variables and before the second record was looked at. *)
Theorem numeric_os_name_aborts_the_pass :
  numeric_os_pass
  = (Raise AttributeError,
     World []
       [AddHost (PStr "10.0.0.5") None;
        SetVariable (PStr "10.0.0.5") "private_ipv4" (PStr "10.0.0.5");
        SetVariable (PStr "10.0.0.5") "name" (PStr "db1");
        SetVariable (PStr "10.0.0.5") "id" (PStr "db1");
        SetVariable (PStr "10.0.0.5") "os_name" (PInt 7)])
  /\ hosts (inventory (snd numeric_os_pass)) = [PStr "10.0.0.5"].
Proof. split; vm_compute; reflexivity. Qed.

(** ** Presence is truth *)

Lemma udf_assign_groups_absent_label hostname h v rest w :
  getitem h (Key "osName") = Raise v ->
  inventory (snd (Udf.assign_groups hostname h ("os" :: rest) w)) = inventory w.
Proof.
  intros E. cbn [Udf.assign_groups]. rewrite udf_group_os. run_monad.
  rewrite udf_group_os. cbv beta iota.
  rewrite udf_os_name_for_group_run, E. reflexivity.
Qed.

(** C10. A record with an [id] and no [name]: [extract_id] is present, so
    [_fill_host_variables] of [udf.py] sets the variable [id], to the result
    of [extract_name], which is [None].  The tests themselves go by truth: a
    port [0] sets no [internal_ssh_port], and an empty management address
    registers no host. *)
Theorem absent_name_is_attached_as_id :
  variables (inventory (snd (Udf.do_server_inventory host_with_id_only
                               "private_ipv4" [] empty_world))) (PStr "10.0.0.5")
  = {[ "private_ipv4" := PStr "10.0.0.5"; "id" := PNone ]}
  /\ truthy PNone = false
  /\ variables (inventory (snd (Udf.do_server_inventory host_with_port_zero
                                  "private_ipv4" [] empty_world))) (PStr "10.0.0.5")
     !! "internal_ssh_port" = None
  /\ hosts (inventory (snd (Udf.do_server_inventory host_with_empty_identity
                              "private_ipv4" [] empty_world))) = [].
Proof.
  split; [| split; [| split]]; vm_compute; reflexivity.
Qed.

(** * Further properties *)

(** ** Methods only add to the state *)

Lemma stateless_ret {A : Type} (a : A) : stateless (mret a).
Proof. exists (Ok a), [], []. intros w. now rewrite extend_nil. Qed.

Lemma stateless_raise {A : Type} (e : exn) : stateless (raise e : M A).
Proof. exists (Raise e), [], []. intros w. now rewrite extend_nil. Qed.

Lemma stateless_lift {A : Type} (r : result A) : stateless (lift r).
Proof. exists r, [], []. intros w. now rewrite extend_nil. Qed.

Lemma stateless_bind {A B : Type} (m : M A) (f : A -> M B) :
  stateless m -> (forall a, stateless (f a)) -> stateless (m ≫= f).
Proof.
  intros (r & log & calls & Wm) Hf. destruct r as [a|e].
  - destruct (Hf a) as (r' & log' & calls' & Wf).
    exists r', (log ++ log')%list, (calls ++ calls')%list. intros w.
    unfold mbind, M_bind. now rewrite Wm, Wf, extend_extend.
  - exists (Raise e), log, calls. intros w.
    unfold mbind, M_bind. now rewrite Wm.
Qed.

Lemma stateless_fmap {A B : Type} (g : A -> B) (m : M A) :
  stateless m -> stateless (g <$> m).
Proof.
  intros (r & log & calls & Wm). destruct r as [a|e].
  - exists (Ok (g a)), log, calls. intros w. unfold fmap, M_fmap. now rewrite Wm.
  - exists (Raise e), log, calls. intros w. unfold fmap, M_fmap. now rewrite Wm.
Qed.

Lemma stateless_try_except {A : Type} (body : M A) classes (handler : exn -> M A) :
  stateless body -> (forall e, stateless (handler e)) ->
  stateless (try_except body classes handler).
Proof.
  intros (r & log & calls & Wb) Hh. destruct r as [a|e].
  - exists (Ok a), log, calls. intros w. unfold try_except. now rewrite Wb.
  - destruct (caught classes e) eqn:C.
    + destruct (Hh e) as (r' & log' & calls' & Wh).
      exists r', (log ++ log')%list, (calls ++ calls')%list. intros w.
      unfold try_except. now rewrite Wb, C, Wh, extend_extend.
    + exists (Raise e), log, calls. intros w.
      unfold try_except. now rewrite Wb, C.
Qed.

Lemma stateless_display_warning text : stateless (display_warning text).
Proof.
  exists (Ok tt), [Warning text], []. intros w.
  unfold display_warning, extend. now rewrite app_nil_r.
Qed.

Lemma stateless_display_error text : stateless (display_error text).
Proof.
  exists (Ok tt), [Error text], []. intros w.
  unfold display_error, extend. now rewrite app_nil_r.
Qed.

Lemma stateless_invoke c : stateless (invoke c).
Proof.
  exists (Ok tt), [], [c]. intros w. unfold invoke, extend. now rewrite app_nil_r.
Qed.

Lemma stateless_table_get table key : stateless (table_get table key).
Proof.
  unfold table_get. destruct (table !! key);
    [apply stateless_ret | apply stateless_raise].
Qed.

Lemma stateless_for_each {A : Type} (items : list A) (body : A -> M unit) :
  (forall x, stateless (body x)) -> stateless (for_each items body).
Proof.
  intros Hb. induction items as [|x items IH]; simpl.
  - apply stateless_ret.
  - apply stateless_bind; [apply Hb | intros _; exact IH].
Qed.

Lemma stateless_total (f : extractor) h : total f -> stateless (f h).
Proof.
  intros T. destruct (T h) as (v & log & _ & R).
  exists (Ok v), log, []. intros w. now rewrite R, warned_extend.
Qed.

Ltac stateless_step :=
  first
    [ apply stateless_ret | apply stateless_raise | apply stateless_lift
    | apply stateless_display_warning | apply stateless_display_error
    | apply stateless_invoke | apply stateless_table_get
    | apply stateless_bind | apply stateless_fmap | apply stateless_try_except
    | apply stateless_for_each
    | match goal with
      | |- stateless (if ?b then _ else _) => destruct b
      | |- stateless (match ?x with _ => _ end) => destruct x
      | |- forall _, _ => intro
      end ].

Ltac stateless := repeat stateless_step.

Lemma udf_os_name_for_group_stateless h : stateless (Udf.extract_os_name_for_group h).
Proof.
  unfold Udf.extract_os_name_for_group. stateless.
Qed.

Ltac unfold_methods :=
  unfold Udf.parse, Udf.do_server_inventory, Udf._filter_host,
    Udf._fill_host_variables, Udf._fetch_information,
    Udf.extract_private_ipv4, Udf.extract_internal_ssh_port, Udf.extract_name,
    Udf.extract_id, Udf.extract_os_name, Udf.extract_os_name_for_group,
    UdfInventory.parse, UdfInventory.do_server_inventory,
    UdfInventory._fill_host_variables, UdfInventory._fetch_information,
    UdfInventory.extract_public_ipv4, UdfInventory.extract_private_ipv4,
    UdfInventory.extract_internal_ssh_port, UdfInventory.extract_name,
    UdfInventory.extract_id, UdfInventory.extract_os_name,
    UdfInventory.extract_hostname, UdfInventory.extract_deployment,
    open_url, to_text, json_loads,
    inventory_add_host, inventory_add_group, inventory_set_variable.

Lemma udf_extractor_stateless p (f : extractor) h :
  Udf.extractors !! p = Some f -> stateless (f h).
Proof. intros Hf. eapply stateless_total, udf_extractors_total, Hf. Qed.

Lemma udf_inventory_extractor_stateless p (f : extractor) h :
  UdfInventory.extractors !! p = Some f -> stateless (f h).
Proof. intros Hf. eapply stateless_total, udf_inventory_extractors_total, Hf. Qed.

Lemma udf_group_extractor_stateless g (f : extractor) h :
  Udf.group_extractors !! g = Some f -> stateless (f h).
Proof.
  intros Hf. apply udf_group_known in Hf as [_ ->].
  apply udf_os_name_for_group_stateless.
Qed.

Lemma udf_inventory_group_extractor_stateless g (f : extractor) h :
  UdfInventory.group_extractors !! g = Some f -> stateless (f h).
Proof.
  unfold UdfInventory.group_extractors. intros Hf.
  apply lookup_singleton_Some in Hf as [_ <-].
  unfold_methods. stateless.
Qed.

Lemma stateless_bind_writes {A B : Type} (m : M A) (f : A -> M B) r log calls :
  writes m r log calls -> (forall a, r = Ok a -> stateless (f a)) ->
  stateless (m ≫= f).
Proof.
  intros Wm Hf. destruct r as [a|e].
  - destruct (Hf a eq_refl) as (r' & log' & calls' & Wf).
    exists r', (log ++ log')%list, (calls ++ calls')%list. intros w.
    unfold mbind, M_bind. now rewrite Wm, Wf, extend_extend.
  - exists (Raise e), log, calls. intros w.
    unfold mbind, M_bind. now rewrite Wm.
Qed.

Lemma table_get_writes table key :
  writes (table_get table key)
    (match table !! key with
     | Some f => Ok f
     | None => Raise (KeyError (PStr key))
     end) [] [].
Proof.
  intros w. unfold table_get. rewrite extend_nil.
  destruct (table !! key); reflexivity.
Qed.

(** [table[key](h)], then [k], on a dictionary whose extractors are
    stateless on [h]. *)
Lemma stateless_dispatch {B : Type} table key h (k : pyval -> M B) :
  (forall f : extractor, table !! key = Some f -> stateless (f h)) ->
  (forall v, stateless (k v)) ->
  stateless (extract ← table_get table key; v ← extract h; k v).
Proof.
  intros Hf Hk.
  eapply stateless_bind_writes; [apply table_get_writes|].
  intros f E. destruct (table !! key) as [f'|] eqn:L; [|discriminate].
  injection E as ->.
  apply stateless_bind; [apply Hf; reflexivity | exact Hk].
Qed.

Lemma udf_filter_host_stateless h p : stateless (Udf._filter_host h p).
Proof.
  unfold Udf._filter_host.
  apply stateless_dispatch; [intros f; apply udf_extractor_stateless|].
  intros v. destruct (truthy v); [|apply stateless_ret].
  eapply stateless_bind_writes; [apply table_get_writes|].
  intros f E. destruct (Udf.extractors !! p) as [f'|] eqn:L; [|discriminate].
  injection E as ->. eapply udf_extractor_stateless, L.
Qed.

Lemma udf_inventory_filter_host_stateless h prefs :
  stateless (UdfInventory._filter_host h prefs).
Proof.
  induction prefs as [|p prefs IH]; cbn [UdfInventory._filter_host].
  - apply stateless_ret.
  - apply stateless_dispatch; [intros f; apply udf_inventory_extractor_stateless|].
    intros v. destruct (truthy v); [|exact IH].
    eapply stateless_bind_writes; [apply table_get_writes|].
    intros f E.
    destruct (UdfInventory.extractors !! p) as [f'|] eqn:L; [|discriminate].
    injection E as ->. eapply udf_inventory_extractor_stateless, L.
Qed.

Lemma udf_assign_groups_stateless hostname h gs :
  stateless (Udf.assign_groups hostname h gs).
Proof.
  induction gs as [|g gs IH]; cbn [Udf.assign_groups].
  - apply stateless_ret.
  - destruct (Udf.group_extractors !! g) as [f|] eqn:L;
      [|apply stateless_display_warning].
    apply stateless_dispatch; [intros f'; apply udf_group_extractor_stateless|].
    intros v. destruct (negb (truthy v)); [apply stateless_ret|].
    unfold_methods. stateless. exact IH.
Qed.

Lemma udf_inventory_assign_groups_stateless hostname h gs :
  stateless (UdfInventory.assign_groups hostname h gs).
Proof.
  induction gs as [|g gs IH]; cbn [UdfInventory.assign_groups].
  - apply stateless_ret.
  - apply stateless_dispatch;
      [intros f'; apply udf_inventory_group_extractor_stateless|].
    intros v. destruct (negb (truthy v)); [apply stateless_ret|].
    unfold_methods. stateless. exact IH.
Qed.

Lemma udf_fill_host_variables_stateless hostname h :
  stateless (Udf._fill_host_variables hostname h).
Proof. unfold_methods. stateless. Qed.

Lemma udf_inventory_fill_host_variables_stateless hostname h :
  stateless (UdfInventory._fill_host_variables hostname h).
Proof. unfold_methods. stateless. Qed.

Lemma udf_do_server_inventory_stateless h p gs :
  stateless (Udf.do_server_inventory h p gs).
Proof.
  unfold Udf.do_server_inventory.
  apply stateless_bind; [apply udf_filter_host_stateless | intros name].
  destruct (negb (truthy name)); [apply stateless_ret|].
  apply stateless_bind; [apply stateless_invoke | intros _].
  apply stateless_bind; [apply udf_fill_host_variables_stateless | intros _].
  apply udf_assign_groups_stateless.
Qed.

Lemma udf_inventory_do_server_inventory_stateless h prefs gs :
  stateless (UdfInventory.do_server_inventory h prefs gs).
Proof.
  unfold UdfInventory.do_server_inventory.
  apply stateless_bind; [apply udf_inventory_filter_host_stateless | intros name].
  destruct (negb (truthy name)); [apply stateless_ret|].
  apply stateless_bind; [apply stateless_invoke | intros _].
  apply stateless_bind; [apply udf_inventory_fill_host_variables_stateless | intros _].
  apply udf_inventory_assign_groups_stateless.
Qed.

Lemma udf_fetch_information_stateless net url :
  stateless (Udf._fetch_information net url).
Proof. unfold_methods. stateless. Qed.

Lemma udf_parse_stateless net config : stateless (Udf.parse net config).
Proof.
  unfold Udf.parse.
  apply stateless_bind; [apply udf_fetch_information_stateless | intros doc].
  destruct (is_None doc); [apply stateless_display_error|].
  do 3 (apply stateless_bind; [apply stateless_lift | intro]).
  apply stateless_for_each. intro. apply udf_do_server_inventory_stateless.
Qed.

Lemma udf_inventory_parse_stateless net config :
  stateless (UdfInventory.parse net config).
Proof.
  unfold UdfInventory.parse.
  apply stateless_bind; [apply udf_fetch_information_stateless | intros doc].
  destruct (is_None doc); [apply stateless_display_error|].
  do 3 (apply stateless_bind; [apply stateless_lift | intro]).
  apply stateless_for_each. intro.
  apply udf_inventory_do_server_inventory_stateless.
Qed.

(** ** The pass, from the answer of the metadata service *)

Lemma udf_parse_document net config doc w :
  net servers_url = Ok (Document doc) -> is_None doc = false ->
  Udf.parse net config w
  = match components_of doc with
    | Raise e => (Raise e, w)
    | Ok records =>
        for_each records (fun component_info =>
          Udf.do_server_inventory component_info (Udf.hostname config)
            (default [] (Udf.groups config))) w
    end.
Proof.
  intros N D. unfold Udf.parse, Udf._fetch_information, try_except, open_url,
    components_of. run_monad. rewrite N. cbn. rewrite D.
  destruct (getitem doc (Key "deployment")) as [d|e]; [|reflexivity].
  destruct (getitem d (Key "components")) as [c|e]; [|reflexivity].
  destruct (iterate c) as [records|e]; [|reflexivity].
  destruct (Udf.groups config); reflexivity.
Qed.

Lemma udf_inventory_parse_document net config doc w :
  net servers_url = Ok (Document doc) -> is_None doc = false ->
  UdfInventory.parse net config w
  = match components_of doc with
    | Raise e => (Raise e, w)
    | Ok records =>
        for_each records (fun component_info =>
          UdfInventory.do_server_inventory component_info
            (UdfInventory.hostnames config)
            (default [] (UdfInventory.groups config))) w
    end.
Proof.
  intros N D. unfold UdfInventory.parse, UdfInventory._fetch_information,
    try_except, open_url, components_of. run_monad. rewrite N. cbn. rewrite D.
  destruct (getitem doc (Key "deployment")) as [d|e]; [|reflexivity].
  destruct (getitem d (Key "components")) as [c|e]; [|reflexivity].
  destruct (iterate c) as [records|e]; [|reflexivity].
  destruct (UdfInventory.groups config); reflexivity.
Qed.



(** X2. A document that is not [null] but does not hold a sequence under
    [deployment.components] aborts the pass with the exception of the failed
    subscription or iteration, a [KeyError] or a [TypeError], before any
    record is looked at: nothing is displayed and the inventory receives no
    call. *)
Theorem misshapen_document_aborts_the_pass :
  forall (net : remote) (doc : pyval) (e : exn) (w : world),
    net servers_url = Ok (Document doc) ->
    is_None doc = false ->
    components_of doc = Raise e ->
    (forall config, Udf.parse net config w = (Raise e, w))
    /\ (forall config, UdfInventory.parse net config w = (Raise e, w))
    /\ (e = KeyError (PStr "deployment") \/ e = KeyError (PStr "components")
        \/ e = TypeError).
Proof.
  intros net doc e w N D C. repeat apply conj.
  - intros config. now rewrite (udf_parse_document net config doc w N D), C.
  - intros config. now rewrite (udf_inventory_parse_document net config doc w N D), C.
  - unfold components_of in C.
    destruct (getitem doc (Key "deployment")) as [d|e1] eqn:E1.
    + destruct (getitem d (Key "components")) as [c|e2] eqn:E2.
      * destruct c; simpl in C; try discriminate; injection C as <-; auto.
      * injection C as <-. apply getitem_Key_raises in E2 as [-> | ->]; auto.
    + injection C as <-. apply getitem_Key_raises in E1 as [-> | ->]; auto.
Qed.

Lemma misshapen_document_aborts_the_pass_witness :
  Udf.parse (fun _ => Ok (Document (PDict [("deployment", PDict [])])))
    (Udf.Options "private_ipv4" None) empty_world
  = (Raise (KeyError (PStr "components")), empty_world)
  /\ UdfInventory.parse (fun _ => Ok (Document (PList [])))
       (UdfInventory.Options ["public_ipv4"] None) empty_world
     = (Raise TypeError, empty_world).
Proof.
  split.
  - apply (misshapen_document_aborts_the_pass
             (fun _ => Ok (Document (PDict [("deployment", PDict [])]))) _ _
             empty_world eq_refl eq_refl eq_refl).
  - apply (misshapen_document_aborts_the_pass
             (fun _ => Ok (Document (PList []))) _ _
             empty_world eq_refl eq_refl eq_refl).
Defined.

(** ** Methods, by what they write *)

Lemma writes_ret {A : Type} (a : A) : writes (mret a) (Ok a) [] [].
Proof. intros w. now rewrite extend_nil. Qed.

Lemma writes_bind_ok {A B : Type} (m : M A) (f : A -> M B) a l c r l' c' :
  writes m (Ok a) l c -> writes (f a) r l' c' ->
  writes (m ≫= f) r (l ++ l') (c ++ c').
Proof.
  intros Wm Wf w. unfold mbind, M_bind. now rewrite Wm, Wf, extend_extend.
Qed.

Lemma writes_bind_raise {A B : Type} (m : M A) (f : A -> M B) e l c :
  writes m (Raise e) l c -> writes (m ≫= f) (Raise e) l c.
Proof. intros Wm w. unfold mbind, M_bind. now rewrite Wm. Qed.

Lemma writes_fun {A : Type} (m : M A) r l c r' l' c' :
  writes m r l c -> writes m r' l' c' -> r = r' /\ c = c'.
Proof.
  intros W W'. specialize (W empty_world). rewrite W' in W.
  injection W as -> _ E. now split.
Qed.

Lemma writes_run {A : Type} (m : M A) r l c w :
  writes m r l c ->
  fst (m w) = r /\ inventory (snd (m w)) = (inventory w ++ c)%list
  /\ display (snd (m w)) = (display w ++ l)%list.
Proof. intros W. rewrite W. repeat split. Qed.

Lemma udf_filter_host_writes h p :
  exists log, writes (Udf._filter_host h p) (udf_hostname h p) log [].
Proof.
  unfold udf_hostname. destruct (Udf.extractors !! p) as [f|] eqn:Hf.
  - destruct (total_run f h (udf_extractors_total _ _ Hf))
      as (v & log & Q & R & Y).
    exists (if truthy v then [] else log). intros w.
    rewrite !(udf_filter_host_known h p f v log _ Hf Q R).
    destruct (truthy v); cbn [fst]; now rewrite ?extend_nil, ?warned_extend.
  - exists []. intros w. rewrite !udf_filter_host_unknown by assumption.
    now rewrite extend_nil.
Qed.

Lemma inventory_filter_host_writes h prefs :
  exists log,
    writes (UdfInventory._filter_host h prefs) (inventory_hostname h prefs) log [].
Proof.
  unfold inventory_hostname.
  destruct (udf_inventory_filter_host_stateless h prefs) as (r & log & calls & W).
  destruct (inventory_filter_host_quiet h prefs empty_world) as [log' Q].
  rewrite W in Q. cbn [snd] in Q. unfold extend, warned in Q.
  injection Q as _ Q. cbn in Q. subst calls.
  exists log. intros w. now rewrite !W.
Qed.

Lemma udf_fill_host_variables_writes hostname h :
  exists log,
    writes (Udf._fill_host_variables hostname h) (Ok tt) log (udf_fill_calls hostname h).
Proof.
  destruct (udf_fill_host_variables_stateless hostname h) as (r & log & calls & W).
  destruct (udf_fill_host_variables_run hostname h empty_world) as [log' R].
  rewrite W in R. unfold extend in R. injection R as -> _ R. cbn in R. subst calls.
  exists log. exact W.
Qed.

Lemma udf_group_result_string h s gs :
  getitem h (Key "osName") = Ok (PStr s) -> udf_group_result h gs = Ok tt.
Proof.
  intros E. destruct gs as [|g gs]; [reflexivity|]. cbn.
  destruct (String.eqb g "os"); [now rewrite E | reflexivity].
Qed.

Lemma udf_assign_groups_writes hostname h gs :
  exists log,
    writes (Udf.assign_groups hostname h gs) (udf_group_result h gs) log
      (udf_group_calls hostname h gs).
Proof.
  induction gs as [|g gs [log IH]].
  - exists []. apply writes_ret.
  - destruct (String.eqb_spec g "os") as [-> | N].
    + destruct (getitem h (Key "osName")) as [v|e] eqn:E.
      * destruct v;
          try (exists []; intros w; cbn [Udf.assign_groups]; rewrite udf_group_os;
               run_monad; rewrite udf_group_os; cbv beta iota;
               rewrite udf_os_name_for_group_run, E; cbn; rewrite E;
               now rewrite extend_nil).
        destruct (String.eqb_spec s "") as [-> | Ns].
        -- exists []. intros w.
           rewrite (udf_assign_groups_os hostname h "" gs w E). cbn.
           rewrite E. now rewrite extend_nil.
        -- exists log. intros w.
           rewrite (udf_assign_groups_os hostname h s gs w E). cbn. rewrite E.
           destruct (String.eqb_spec s ""); [contradiction|].
           rewrite IH, (udf_group_result_string h s gs E).
           unfold extend. cbn. now rewrite <- !app_assoc.
      * eexists. intros w. cbn [Udf.assign_groups]. rewrite udf_group_os.
        run_monad. rewrite udf_group_os. cbv beta iota.
        rewrite udf_os_name_for_group_run, E. cbn. rewrite E.
        apply f_equal, warned_extend.
    + eexists. intros w. rewrite (udf_assign_groups_unknown hostname h g gs w N).
      cbn. destruct (String.eqb_spec g "os"); [contradiction|].
      apply f_equal, warned_extend.
Qed.

Lemma udf_do_server_inventory_writes h p gs :
  exists log,
    writes (Udf.do_server_inventory h p gs) (udf_record_result h p gs) log
      (udf_record_calls h p gs).
Proof.
  unfold udf_record_result, udf_record_calls, Udf.do_server_inventory.
  destruct (udf_filter_host_writes h p) as [l1 W1].
  destruct (udf_hostname h p) as [name|e].
  - destruct (truthy name) eqn:T.
    + destruct (udf_fill_host_variables_writes name h) as [l2 W2].
      destruct (udf_assign_groups_writes name h gs) as [l3 W3].
      exists (l1 ++ l2 ++ l3)%list. intros w. run_monad.
      rewrite W1. cbv beta iota. rewrite T. cbn [negb]. cbv beta iota.
      unfold inventory_add_host, invoke. cbv beta iota.
      rewrite W2. cbv beta iota. rewrite W3.
      unfold extend. cbn. rewrite <- !app_assoc, ?app_nil_r. reflexivity.
    + exists l1. intros w. run_monad. rewrite W1. cbv beta iota. now rewrite T.
  - exists l1. now apply writes_bind_raise.
Qed.

Lemma udf_inventory_internal_ssh_port_run h w :
  UdfInventory.extract_internal_ssh_port h w = (Ok (port h), w).
Proof. exact (udf_internal_ssh_port_run h w). Qed.

Lemma inventory_fill_host_variables_writes hostname h :
  exists log,
    writes (UdfInventory._fill_host_variables hostname h) (Ok tt) log
      (inventory_fill_calls hostname h).
Proof.
  pose proof (fun w => field_extractor_value lookup_errors _ h "mgmtIp" w eq_refl eq_refl
              : UdfInventory.extract_public_ipv4 h w = _) as Rb.
  pose proof (fun w => field_extractor_value lookup_errors _ h "mgmtIp" w eq_refl eq_refl
              : UdfInventory.extract_private_ipv4 h w = _) as Ra.
  pose proof (fun w => eq_trans (udf_inventory_internal_ssh_port_run h w)
                         (f_equal (pair (Ok (port h))) (eq_sym (warned_nil w)))) as Rp.
  pose proof (fun w => field_extractor_value key_errors _ h "name" w eq_refl eq_refl
              : UdfInventory.extract_name h w = _) as Rn.
  pose proof (fun w => field_extractor_value key_errors _ h "id" w eq_refl eq_refl
              : UdfInventory.extract_id h w = _) as Ri.
  pose proof (fun w => field_extractor_value key_errors _ h "osName" w eq_refl eq_refl
              : UdfInventory.extract_os_name h w = _) as Ro.
  eexists. intros w. unfold UdfInventory._fill_host_variables.
  rewrite (guarded_set_then _ _ hostname "public_ipv4" h _ _ _ _ _ w Rb Rb).
  rewrite (guarded_set_then _ _ hostname "private_ipv4" h _ _ _ _ _ _ Ra Ra).
  rewrite (guarded_set_then _ _ hostname "internal_ssh_port" h _ _ _ _ _ _ Rp Rp).
  rewrite (guarded_set_then _ _ hostname "name" h _ _ _ _ _ _ Rn Rn).
  rewrite (guarded_set_then _ _ hostname "id" h _ _ _ _ _ _ Ri Rn).
  rewrite (guarded_set_last _ _ hostname "os_name" h _ _ _ _ _ Ro Ro).
  rewrite !extend_extend. unfold inventory_fill_calls.
  rewrite !app_assoc. reflexivity.
Qed.

Lemma inventory_group_unknown g :
  g <> "os" -> UdfInventory.group_extractors !! g = None.
Proof. intros N. apply lookup_singleton_None. congruence. Qed.

Lemma inventory_assign_groups_writes hostname h gs :
  exists log,
    writes (UdfInventory.assign_groups hostname h gs) (inventory_group_result h gs) log
      (inventory_group_calls hostname h gs).
Proof.
  induction gs as [|g gs [log IH]].
  - exists []. apply writes_ret.
  - destruct (String.eqb_spec g "os") as [-> | N].
    + pose proof (fun w => field_extractor_value key_errors _ h "osName" w eq_refl eq_refl
                  : UdfInventory.extract_os_name h w = _) as Ro.
      destruct (truthy (field h "osName")) eqn:T.
      * eexists. intros w. cbn [UdfInventory.assign_groups]. run_monad.
        rewrite udf_inventory_group_os. cbv beta iota. rewrite Ro, T.
        cbn [negb]. cbv beta iota.
        unfold inventory_add_group, inventory_add_host, invoke. cbv beta iota.
        rewrite IH. cbn. rewrite T. unfold extend, warned. cbn.
        rewrite <- !app_assoc. reflexivity.
      * eexists. intros w. cbn [UdfInventory.assign_groups]. run_monad.
        rewrite udf_inventory_group_os. cbv beta iota. rewrite Ro, T.
        cbn. rewrite T. apply f_equal, warned_extend.
    + exists []. intros w.
      rewrite (udf_inventory_assign_groups_unknown hostname h g gs w N). cbn.
      destruct (String.eqb_spec g "os"); [contradiction|].
      now rewrite extend_nil.
Qed.

Lemma inventory_do_server_inventory_writes h prefs gs :
  exists log,
    writes (UdfInventory.do_server_inventory h prefs gs)
      (inventory_record_result h prefs gs) log (inventory_record_calls h prefs gs).
Proof.
  unfold inventory_record_result, inventory_record_calls,
    UdfInventory.do_server_inventory.
  destruct (inventory_filter_host_writes h prefs) as [l1 W1].
  destruct (inventory_hostname h prefs) as [name|e].
  - destruct (truthy name) eqn:T.
    + destruct (inventory_fill_host_variables_writes name h) as [l2 W2].
      destruct (inventory_assign_groups_writes name h gs) as [l3 W3].
      exists (l1 ++ l2 ++ l3)%list. intros w. run_monad.
      rewrite W1. cbv beta iota. rewrite T. cbn [negb]. cbv beta iota.
      unfold inventory_add_host, invoke. cbv beta iota.
      rewrite W2. cbv beta iota. rewrite W3.
      unfold extend. cbn. rewrite <- !app_assoc, ?app_nil_r. reflexivity.
    + exists l1. intros w. run_monad. rewrite W1. cbv beta iota. now rewrite T.
  - exists l1. now apply writes_bind_raise.
Qed.

(** ** Hostnames, by the field they are read from *)

(** The field a hostname identifier stands for. *)
Lemma udf_extractor_field p (f : extractor) :
  Udf.extractors !! p = Some f ->
  exists k, (p = "private_ipv4" /\ k = "mgmtIp" \/ p = "id" /\ k = "id")
            /\ forall h, yields f h (field h k).
Proof.
  unfold Udf.extractors. intros H.
  apply lookup_insert_Some in H as [[<- <-] | [_ H]];
    [| apply lookup_singleton_Some in H as [<- <-]].
  - exists "mgmtIp". split; [auto|]. intros h w.
    unfold Udf.extract_private_ipv4.
    now rewrite field_extractor_value by reflexivity.
  - exists "id". split; [auto|]. intros h w.
    unfold Udf.extract_id. now rewrite field_extractor_value by reflexivity.
Qed.

Lemma udf_inventory_extractor_field p (f : extractor) :
  UdfInventory.extractors !! p = Some f ->
  exists k, (p = "public_ipv4" /\ k = "mgmtIp" \/ p = "private_ipv4" /\ k = "mgmtIp"
             \/ p = "hostname" /\ k = "id")
            /\ forall h, yields f h (field h k).
Proof.
  unfold UdfInventory.extractors. intros H.
  apply lookup_insert_Some in H as [[<- <-] | [_ H]];
    [| apply lookup_insert_Some in H as [[<- <-] | [_ H]];
       [| apply lookup_singleton_Some in H as [<- <-]]].
  - exists "mgmtIp". split; [auto|]. intros h w.
    unfold UdfInventory.extract_public_ipv4.
    now rewrite field_extractor_value by reflexivity.
  - exists "mgmtIp". split; [auto|]. intros h w.
    unfold UdfInventory.extract_private_ipv4.
    now rewrite field_extractor_value by reflexivity.
  - exists "id". split; [auto|]. intros h w.
    unfold UdfInventory.extract_hostname.
    now rewrite field_extractor_value by reflexivity.
Qed.

Lemma field_not_an_object h k :
  (forall items, h <> PDict items) -> field h k = PNone.
Proof.
  intros N. unfold field. destruct h; try reflexivity. now destruct (N items).
Qed.

Lemma udf_hostname_known h p (f : extractor) v :
  Udf.extractors !! p = Some f -> yields f h v ->
  udf_hostname h p = Ok (if truthy v then v else PNone).
Proof.
  intros Hf Y. unfold udf_hostname.
  destruct (total_run f h (udf_extractors_total _ _ Hf))
    as (v' & log & Q & R & Y').
  assert (v' = v) as -> by (eapply yields_fun; eassumption).
  rewrite (udf_filter_host_known h p f v log _ Hf Q R).
  now destruct (truthy v).
Qed.

Lemma inventory_hostname_absent h prefs :
  Forall (absent_at UdfInventory.extractors h) prefs ->
  inventory_hostname h prefs = Ok PNone.
Proof.
  intros F. unfold inventory_hostname.
  now destruct (inventory_filter_host_skip h prefs F [] empty_world).
Qed.

Lemma udf_record_run h p gs w :
  fst (Udf.do_server_inventory h p gs w) = udf_record_result h p gs
  /\ inventory (snd (Udf.do_server_inventory h p gs w))
     = (inventory w ++ udf_record_calls h p gs)%list.
Proof.
  destruct (udf_do_server_inventory_writes h p gs) as [log W].
  rewrite W. split; reflexivity.
Qed.

Lemma inventory_record_run h prefs gs w :
  fst (UdfInventory.do_server_inventory h prefs gs w)
  = inventory_record_result h prefs gs
  /\ inventory (snd (UdfInventory.do_server_inventory h prefs gs w))
     = (inventory w ++ inventory_record_calls h prefs gs)%list.
Proof.
  destruct (inventory_do_server_inventory_writes h prefs gs) as [log W].
  rewrite W. split; reflexivity.
Qed.

(** X3. A component that is not a JSON object (a number, a string, [null],
    a list) is passed over: with recognised hostname identifiers, processing
    it returns normally and the inventory receives no call, in both
    plugins. *)
Theorem component_that_is_no_object_is_skipped :
  forall h : pyval,
    (forall items, h <> PDict items) ->
    (forall (p : string) (gs : list string) (w : world),
       is_Some (Udf.extractors !! p) ->
       fst (Udf.do_server_inventory h p gs w) = Ok tt
       /\ inventory (snd (Udf.do_server_inventory h p gs w)) = inventory w)
    /\ (forall (prefs gs : list string) (w : world),
          Forall (fun p => is_Some (UdfInventory.extractors !! p)) prefs ->
          fst (UdfInventory.do_server_inventory h prefs gs w) = Ok tt
          /\ inventory (snd (UdfInventory.do_server_inventory h prefs gs w))
             = inventory w).
Proof.
  intros h N. split.
  - intros p gs w [f Hf].
    destruct (udf_record_run h p gs w) as [-> ->].
    destruct (udf_extractor_field p f Hf) as (k & _ & Y).
    unfold udf_record_result, udf_record_calls.
    rewrite (udf_hostname_known h p f _ Hf (Y h)), (field_not_an_object h k N).
    cbn. now rewrite app_nil_r.
  - intros prefs gs w K.
    destruct (inventory_record_run h prefs gs w) as [-> ->].
    unfold inventory_record_result, inventory_record_calls.
    rewrite inventory_hostname_absent; [cbn; now rewrite app_nil_r|].
    eapply Forall_impl; [exact K|]. intros p [f Hf].
    destruct (udf_inventory_extractor_field p f Hf) as (k & _ & Y).
    exists PNone. split; [|reflexivity].
    exists f. split; [exact Hf|]. rewrite <- (field_not_an_object h k N). apply Y.
Qed.

Lemma component_that_is_no_object_is_skipped_witness :
  (fst (Udf.do_server_inventory (PStr "web1") "id" ["os"] empty_world) = Ok tt
   /\ inventory (snd (Udf.do_server_inventory (PStr "web1") "id" ["os"] empty_world))
      = inventory empty_world)
  /\ (fst (UdfInventory.do_server_inventory (PInt 7) ["hostname"; "public_ipv4"]
             ["os"] empty_world) = Ok tt
      /\ inventory (snd (UdfInventory.do_server_inventory (PInt 7)
                           ["hostname"; "public_ipv4"] ["os"] empty_world))
         = inventory empty_world).
Proof.
  split.
  - apply (proj1 (component_that_is_no_object_is_skipped (PStr "web1")
                    ltac:(discriminate))).
    vm_compute; eauto.
  - apply (proj2 (component_that_is_no_object_is_skipped (PInt 7)
                    ltac:(discriminate))).
    repeat constructor; vm_compute; eauto.
Defined.

(** ** Passes that do not raise *)

Lemma for_each_writes {A : Type} (body : A -> M unit) result_of calls_of items :
  (forall x, exists log, writes (body x) (result_of x) log (calls_of x)) ->
  exists log,
    writes (for_each items body) (each_result result_of items) log
      (each_calls result_of calls_of items).
Proof.
  intros Hb. induction items as [|x items [log IH]].
  - exists []. apply writes_ret.
  - destruct (Hb x) as [l W]. cbn [for_each each_result each_calls].
    destruct (result_of x) as [[]|e].
    + exists (l ++ log)%list. eapply writes_bind_ok; [exact W | exact IH].
    + exists l. rewrite app_nil_r. now apply writes_bind_raise.
Qed.

Lemma each_result_Ok {A : Type} (result_of : A -> result unit) items :
  Forall (fun x => result_of x = Ok tt) items -> each_result result_of items = Ok tt.
Proof.
  induction 1 as [|x items E _ IH]; [reflexivity|]. cbn. now rewrite E.
Qed.

Lemma inventory_hostname_recognised h prefs :
  Forall (fun p => is_Some (UdfInventory.extractors !! p)) prefs ->
  exists name, inventory_hostname h prefs = Ok name.
Proof.
  intros K. destruct (inventory_filter_host_first h prefs K) as (candidates & _ & E).
  eexists. apply E.
Qed.

Lemma inventory_group_result_os h gs :
  Forall (fun g => g = "os") gs -> inventory_group_result h gs = Ok tt.
Proof.
  induction 1 as [|g gs -> _ IH]; [reflexivity|]. cbn.
  now destruct (truthy (field h "osName")).
Qed.

Lemma inventory_record_result_Ok h prefs gs :
  Forall (fun p => is_Some (UdfInventory.extractors !! p)) prefs ->
  Forall (fun g => g = "os") gs ->
  inventory_record_result h prefs gs = Ok tt.
Proof.
  intros K G. unfold inventory_record_result.
  destruct (inventory_hostname_recognised h prefs K) as [name ->].
  destruct (truthy name); [now apply inventory_group_result_os | reflexivity].
Qed.

(** X4. In [udf_inventory.py], with recognised hostname identifiers and no
    group dimension but [os], a record whose [mgmtIp], [id] and [osName],
    where it has them, are strings does not make [do_server_inventory]
    raise, whatever else it holds or lacks and also when it is no object at
    all; and a pass over a document that holds a sequence of such components
    returns normally. *)
Theorem udf_inventory_pass_does_not_raise :
  forall (prefs gs : list string),
    Forall (fun p => is_Some (UdfInventory.extractors !! p)) prefs ->
    Forall (fun g => g = "os") gs ->
    (forall (h : pyval) (w : world),
       string_fields h ->
       fst (UdfInventory.do_server_inventory h prefs gs w) = Ok tt)
    /\ (forall (net : remote) (doc : pyval) (records : list pyval) (w : world),
          net servers_url = Ok (Document doc) ->
          components_of doc = Ok records ->
          Forall string_fields records ->
          fst (UdfInventory.parse net (UdfInventory.Options prefs (Some gs)) w) = Ok tt).
Proof.
  intros prefs gs K G. split.
  - intros h w _. destruct (inventory_record_run h prefs gs w) as [-> _].
    now apply inventory_record_result_Ok.
  - intros net doc records w N C _.
    destruct (is_None doc) eqn:D.
    + destruct doc; discriminate.
    + rewrite (udf_inventory_parse_document net _ doc w N D), C. cbn.
      destruct (for_each_writes
                  (fun r => UdfInventory.do_server_inventory r prefs gs)
                  (fun r => inventory_record_result r prefs gs)
                  (fun r => inventory_record_calls r prefs gs) records
                  (fun r => inventory_do_server_inventory_writes r prefs gs))
        as [log W].
      rewrite W. cbn. apply each_result_Ok.
      apply Forall_forall. intros r _. now apply inventory_record_result_Ok.
Qed.

Lemma udf_inventory_pass_does_not_raise_witness :
  fst (UdfInventory.do_server_inventory plain_host ["public_ipv4"] ["os"]
         empty_world) = Ok tt
  /\ fst (UdfInventory.parse (fun _ => Ok (Document two_odd_components))
            (UdfInventory.Options ["public_ipv4"] (Some ["os"])) empty_world) = Ok tt.
Proof.
  assert (K : Forall (fun p => is_Some (UdfInventory.extractors !! p)) ["public_ipv4"])
    by (repeat constructor; vm_compute; eauto).
  assert (G : Forall (fun g => g = "os") ["os"]) by (repeat constructor).
  assert (S : string_fields plain_host).
  { intros k v [<- | [<- | [<- | []]]] E; vm_compute in E;
      try discriminate; injection E as <-; eauto. }
  assert (S' : string_fields (PList [PNone])).
  { intros k v _ E. discriminate. }
  destruct (udf_inventory_pass_does_not_raise ["public_ipv4"] ["os"] K G) as [R P].
  split.
  - apply R, S.
  - eapply P; [reflexivity | reflexivity |].
    repeat constructor; assumption.
Defined.

(** ** What makes a record of [udf.py] raise *)

Lemma udf_group_result_cases h gs :
  udf_group_result h gs = Ok tt
  \/ (udf_group_result h gs = Raise AttributeError
      /\ (exists rest, gs = "os" :: rest)
      /\ exists v, getitem h (Key "osName") = Ok v /\ forall s, v <> PStr s).
Proof.
  destruct gs as [|g rest]; [now left|]. cbn.
  destruct (String.eqb_spec g "os") as [-> | N]; [|now left].
  destruct (getitem h (Key "osName")) as [v|e]; [|now left].
  destruct v; try (now left);
    (right; split; [reflexivity | split; [now exists rest |]];
     eexists; split; [reflexivity | discriminate]).
Qed.

Lemma udf_group_result_raises h rest v :
  getitem h (Key "osName") = Ok v -> (forall s, v <> PStr s) ->
  udf_group_result h ("os" :: rest) = Raise AttributeError.
Proof.
  intros E N. cbn. rewrite E. destruct v; try reflexivity. now destruct (N s).
Qed.

(** X5. In [udf.py], with a recognised hostname identifier, processing a
    record whose hostname, when it resolves, is a string either returns
    normally or raises [AttributeError], and it raises exactly when the
    hostname resolves, the first group dimension is [os] and the record
    holds an [osName] that is not a string. *)
Theorem udf_record_raises_only_on_os_name :
  forall (h : pyval) (p : string) (gs : list string) (w : world),
    is_Some (Udf.extractors !! p) ->
    string_if_present (fst (Udf._filter_host h p w)) ->
    (fst (Udf.do_server_inventory h p gs w) = Ok tt
     \/ fst (Udf.do_server_inventory h p gs w) = Raise AttributeError)
    /\ (fst (Udf.do_server_inventory h p gs w) = Raise AttributeError <->
        present_at Udf.extractors h p
        /\ (exists rest, gs = "os" :: rest)
        /\ exists v, getitem h (Key "osName") = Ok v /\ forall s, v <> PStr s).
Proof.
  intros h p gs w [f Hf] _.
  destruct (udf_record_run h p gs w) as [-> _].
  destruct (udf_extractor_field p f Hf) as (k & _ & Y).
  unfold udf_record_result.
  rewrite (udf_hostname_known h p f _ Hf (Y h)).
  assert (P : present_at Udf.extractors h p <-> truthy (field h k) = true).
  { split.
    - intros (v & (f' & Hf' & Y') & T). rewrite Hf in Hf'. injection Hf' as <-.
      now rewrite (yields_fun f h _ _ (Y h) Y').
    - intros T. exists (field h k). split; [exists f; auto | exact T]. }
  destruct (truthy (field h k)) eqn:T.
  - rewrite T. destruct (udf_group_result_cases h gs) as [E | (E & G & V)];
      rewrite E; split; auto.
    + split; [discriminate|].
      intros (_ & (rest & ->) & (v & Ev & Nv)).
      now rewrite (udf_group_result_raises h rest v Ev Nv) in E.
    + split; [|reflexivity]. intros _. split; [now apply P | auto].
  - cbn. split; [auto|]. split; [discriminate|].
    intros (Pr & _). apply P in Pr. discriminate.
Qed.

Lemma udf_record_raises_only_on_os_name_witness :
  (fst (Udf.do_server_inventory numeric_os_host "private_ipv4" ["os"] empty_world)
   = Raise AttributeError <->
   present_at Udf.extractors numeric_os_host "private_ipv4"
   /\ (exists rest, ["os"] = "os" :: rest)
   /\ exists v, getitem numeric_os_host (Key "osName") = Ok v /\ forall s, v <> PStr s).
Proof.
  apply (udf_record_raises_only_on_os_name numeric_os_host "private_ipv4" ["os"]
           empty_world).
  - vm_compute; eauto.
  - intros v E _. vm_compute in E. injection E as <-. eauto.
Defined.

(** ** The calls of one record *)

Lemma set_if_shape test name k v :
  Forall (fun c => exists k v, c = SetVariable name k v) (set_if test name k v).
Proof. unfold set_if. destruct (truthy test); repeat constructor. eauto. Qed.

Lemma udf_fill_calls_shape name h :
  Forall (fun c => exists k v, c = SetVariable name k v) (udf_fill_calls name h).
Proof.
  unfold udf_fill_calls. rewrite !Forall_app.
  repeat apply conj; apply set_if_shape.
Qed.

Lemma inventory_fill_calls_shape name h :
  Forall (fun c => exists k v, c = SetVariable name k v) (inventory_fill_calls name h).
Proof.
  unfold inventory_fill_calls. rewrite !Forall_app.
  repeat apply conj; apply set_if_shape.
Qed.

Lemma udf_group_calls_shape name h gs : group_pairs name (udf_group_calls name h gs).
Proof.
  induction gs as [|g gs IH]; cbn; [constructor|].
  destruct (String.eqb g "os"); [|constructor].
  destruct (getitem h (Key "osName")) as [[]|]; try constructor.
  destruct (String.eqb_spec s ""); constructor; [|exact IH].
  apply truthy_PStr_nonempty. now rewrite normalised_empty.
Qed.

Lemma inventory_group_calls_shape name h gs :
  group_pairs name (inventory_group_calls name h gs).
Proof.
  induction gs as [|g gs IH]; cbn; [constructor|].
  destruct (String.eqb g "os"); [|constructor].
  destruct (truthy (field h "osName")) eqn:T; constructor; assumption.
Qed.

(** X6. The calls that processing one record adds to the inventory are none
    at all, or, in this order: the registration of the host under a present
    name, variables set on that host and on nothing else, and then, for each
    group, the group added and the host added to it, every group label being
    present.  So a host is never put in a group that was not added just
    before, and no group or variable appears without its host.  This holds
    in both plugins for every preference and state, also when processing
    ends with an exception of the plugin's own code, for a record whose
    hostname, when it resolves, is a string, and, in [udf_inventory.py],
    whose [osName], when present, is a string. *)
Theorem calls_of_a_record_are_ordered :
  (forall (h : pyval) (p : string) (gs : list string) (w : world),
     string_if_present (fst (Udf._filter_host h p w)) ->
     exists calls,
       inventory (snd (Udf.do_server_inventory h p gs w)) = (inventory w ++ calls)%list
       /\ record_shape calls)
  /\ (forall (h : pyval) (prefs gs : list string) (w : world),
        string_if_present (fst (UdfInventory._filter_host h prefs w)) ->
        string_if_present (getitem h (Key "osName")) ->
        exists calls,
          inventory (snd (UdfInventory.do_server_inventory h prefs gs w))
          = (inventory w ++ calls)%list
          /\ record_shape calls).
Proof.
  split.
  - intros h p gs w _. exists (udf_record_calls h p gs).
    split; [apply udf_record_run|].
    unfold udf_record_calls, record_shape.
    destruct (udf_hostname h p) as [name|e]; [|now left].
    destruct (truthy name) eqn:T; [|now left].
    right. exists name, (udf_fill_calls name h), (udf_group_calls name h gs).
    auto using udf_fill_calls_shape, udf_group_calls_shape.
  - intros h prefs gs w _ _. exists (inventory_record_calls h prefs gs).
    split; [apply inventory_record_run|].
    unfold inventory_record_calls, record_shape.
    destruct (inventory_hostname h prefs) as [name|e]; [|now left].
    destruct (truthy name) eqn:T; [|now left].
    right. exists name, (inventory_fill_calls name h), (inventory_group_calls name h gs).
    auto using inventory_fill_calls_shape, inventory_group_calls_shape.
Qed.

Lemma calls_of_a_record_are_ordered_witness :
  (exists calls,
     inventory (snd (Udf.do_server_inventory numeric_os_host "private_ipv4" ["os"]
                       empty_world))
     = (inventory empty_world ++ calls)%list
     /\ record_shape calls)
  /\ (exists calls,
        inventory (snd (UdfInventory.do_server_inventory centos_host
                          ["hostname"; "public_ipv4"] ["os"; "zone"] empty_world))
        = (inventory empty_world ++ calls)%list
        /\ record_shape calls).
Proof.
  split.
  - apply (proj1 calls_of_a_record_are_ordered numeric_os_host "private_ipv4" ["os"]
             empty_world).
    intros v E _. vm_compute in E. injection E as <-. eauto.
  - apply (proj2 calls_of_a_record_are_ordered centos_host
             ["hostname"; "public_ipv4"] ["os"; "zone"] empty_world).
    + intros v E _. vm_compute in E. injection E as <-. eauto.
    + intros v E _. vm_compute in E. injection E as <-. eauto.
Defined.

(** ** The variables of one record *)

Lemma In_set_if_inv test name k0 v0 e k v :
  In (SetVariable e k v) (set_if test name k0 v0) ->
  e = name /\ k = k0 /\ v = v0 /\ truthy test = true.
Proof.
  unfold set_if. destruct (truthy test); [|contradiction].
  intros [[= <- <- <-] | []]. auto.
Qed.



Lemma group_pairs_no_variable name calls e k v :
  group_pairs name calls -> ~ In (SetVariable e k v) calls.
Proof.
  induction 1 as [|g rest _ _ IH]; [intros []|].
  intros [| [|]]; try discriminate. now apply IH.
Qed.

Lemma udf_filter_host_run h p w : fst (Udf._filter_host h p w) = udf_hostname h p.
Proof. destruct (udf_filter_host_writes h p) as [log W]. now rewrite W. Qed.

Lemma inventory_filter_host_run h prefs w :
  fst (UdfInventory._filter_host h prefs w) = inventory_hostname h prefs.
Proof. destruct (inventory_filter_host_writes h prefs) as [log W]. now rewrite W. Qed.




(** ** The two addresses of [udf_inventory.py] *)

Lemma inventory_hostname_cons h p rest (f : extractor) v :
  UdfInventory.extractors !! p = Some f -> yields f h v ->
  inventory_hostname h (p :: rest)
  = if truthy v then Ok v else inventory_hostname h rest.
Proof.
  intros Hf Y. unfold inventory_hostname at 1.
  destruct (total_run f h (udf_inventory_extractors_total _ _ Hf))
    as (v' & log & Q & R & Y').
  assert (v' = v) as -> by (eapply yields_fun; eassumption).
  rewrite (inventory_filter_host_known h p rest f v log _ Hf Q R).
  destruct (truthy v); [reflexivity | apply inventory_filter_host_run].
Qed.

Lemma In_inventory_fill_address name h e k v :
  k = "public_ipv4" \/ k = "private_ipv4" ->
  In (SetVariable e k v) (inventory_fill_calls name h) <->
  e = name /\ v = field h "mgmtIp" /\ truthy (field h "mgmtIp") = true.
Proof.
  intros K. unfold inventory_fill_calls. rewrite !in_app_iff. split.
  - intros [I | [I | [I | [I | [I | I]]]]];
      apply In_set_if_inv in I as (-> & -> & -> & T);
      try (destruct K; discriminate); auto.
  - intros (-> & -> & T). destruct K as [-> | ->].
    + left. now apply In_set_if.
    + right; left. now apply In_set_if.
Qed.

(** X8. [udf_inventory.py] reads the public and the private address from the
    same field.  As hostname identifiers [public_ipv4] and [private_ipv4] are
    interchangeable: a preference list that starts with one resolves every
    record to what it resolves to when it starts with the other.  And for
    every record the variables [public_ipv4] and [private_ipv4] are set
    together, on the same host and to the same value. *)
Theorem public_and_private_address_coincide :
  (forall (h : pyval) (rest : list string) (w : world),
     fst (UdfInventory._filter_host h ("public_ipv4" :: rest) w)
     = fst (UdfInventory._filter_host h ("private_ipv4" :: rest) w))
  /\ (forall (h : pyval) (prefs gs : list string) (w : world)
             (calls : list call) (e v : pyval),
        inventory (snd (UdfInventory.do_server_inventory h prefs gs w))
        = (inventory w ++ calls)%list ->
        (In (SetVariable e "public_ipv4" v) calls <->
         In (SetVariable e "private_ipv4" v) calls)).
Proof.
  split.
  - intros h rest w. rewrite !inventory_filter_host_run.
    rewrite (inventory_hostname_cons h "public_ipv4" rest
               UdfInventory.extract_public_ipv4 (field h "mgmtIp")),
            (inventory_hostname_cons h "private_ipv4" rest
               UdfInventory.extract_private_ipv4 (field h "mgmtIp"));
      try reflexivity.
    + intros w'. unfold UdfInventory.extract_private_ipv4.
      now rewrite field_extractor_value by reflexivity.
    + intros w'. unfold UdfInventory.extract_public_ipv4.
      now rewrite field_extractor_value by reflexivity.
  - intros h prefs gs w calls e v E.
    destruct (inventory_record_run h prefs gs w) as [_ R]. rewrite R in E.
    apply app_inv_head in E. subst calls. unfold inventory_record_calls.
    destruct (inventory_hostname h prefs) as [name|]; [|reflexivity].
    destruct (truthy name); [|reflexivity].
    assert (G : forall k, In (SetVariable e k v)
                  (AddHost name None :: inventory_fill_calls name h
                     ++ inventory_group_calls name h gs)%list
                <-> In (SetVariable e k v) (inventory_fill_calls name h)).
    { intros k. cbn [In]. rewrite in_app_iff. split.
      - intros [I | [I | I]]; [discriminate | exact I |].
        now apply (group_pairs_no_variable _ _ _ _ _
                     (inventory_group_calls_shape name h gs)) in I.
      - auto. }
    rewrite !G, !In_inventory_fill_address by auto. reflexivity.
Qed.

Lemma public_and_private_address_coincide_witness :
  In (SetVariable (PStr "h1") "public_ipv4" (PStr "10.0.0.5"))
    [AddHost (PStr "h1") None;
     SetVariable (PStr "h1") "public_ipv4" (PStr "10.0.0.5");
     SetVariable (PStr "h1") "private_ipv4" (PStr "10.0.0.5");
     SetVariable (PStr "h1") "id" PNone] <->
  In (SetVariable (PStr "h1") "private_ipv4" (PStr "10.0.0.5"))
    [AddHost (PStr "h1") None;
     SetVariable (PStr "h1") "public_ipv4" (PStr "10.0.0.5");
     SetVariable (PStr "h1") "private_ipv4" (PStr "10.0.0.5");
     SetVariable (PStr "h1") "id" PNone].
Proof.
  apply (proj2 public_and_private_address_coincide host_with_id_only ["hostname"]
           [] empty_world).
  vm_compute. reflexivity.
Defined.

(** ** The normalised group label *)

Lemma normalised_cons c s :
  normalised (String c s)
  = String (lower_char (if Ascii.eqb (if Ascii.eqb c " " then "_"%char else c) "."
                        then "_"%char
                        else if Ascii.eqb c " " then "_"%char else c))
      (normalised s).
Proof. reflexivity. Qed.

Lemma normalised_char c :
  let c' := lower_char (if Ascii.eqb (if Ascii.eqb c " " then "_"%char else c) "."
                        then "_"%char
                        else if Ascii.eqb c " " then "_"%char else c) in
  c' <> " "%char /\ c' <> "."%char
  /\ (Nat.leb 65 (nat_of_ascii c') && Nat.leb (nat_of_ascii c') 90)%bool = false
  /\ lower_char (if Ascii.eqb (if Ascii.eqb c' " " then "_"%char else c') "."
                 then "_"%char
                 else if Ascii.eqb c' " " then "_"%char else c') = c'.
Proof.
  destruct c as [[] [] [] [] [] [] [] []]; vm_compute;
    (split; [discriminate | split; [discriminate | split; reflexivity]]).
Qed.

Lemma normalised_length s : String.length (normalised s) = String.length s.
Proof.
  induction s as [|c s IH]; [reflexivity|].
  rewrite normalised_cons. cbn [String.length]. now rewrite IH.
Qed.

Lemma normalised_idempotent s : normalised (normalised s) = normalised s.
Proof.
  induction s as [|c s IH]; [reflexivity|].
  rewrite normalised_cons, normalised_cons, IH. f_equal. apply normalised_char.
Qed.

Lemma normalised_chars s :
  forall (i : nat) (c : ascii),
    String.get i (normalised s) = Some c ->
    c <> " "%char /\ c <> "."%char
    /\ (Nat.leb 65 (nat_of_ascii c) && Nat.leb (nat_of_ascii c) 90)%bool = false.
Proof.
  induction s as [|a s IH]; intros i c G; [destruct i; discriminate|].
  rewrite normalised_cons in G. destruct i as [|i]; cbn [String.get] in G.
  - injection G as <-. destruct (normalised_char a) as (A & B & C & _). auto.
  - now apply (IH i).
Qed.

(** X9. On a record whose [osName] is a string of ASCII characters, the
    label [extract_os_name_for_group] returns has the length of that string
    and holds no space, no period and no capital letter; normalising the
    label again leaves it as it is. *)
Theorem group_label_is_normal :
  forall (h : pyval) (s : string) (w : world),
    getitem h (Key "osName") = Ok (PStr s) ->
    is_ascii s = true ->
    exists t,
      Udf.extract_os_name_for_group h w = (Ok (PStr t), w)
      /\ String.length t = String.length s
      /\ (forall (i : nat) (c : ascii),
            String.get i t = Some c ->
            c <> " "%char /\ c <> "."%char
            /\ (Nat.leb 65 (nat_of_ascii c) && Nat.leb (nat_of_ascii c) 90)%bool = false)
      /\ Udf.normalise (PStr t) = Ok (PStr t).
Proof.
  intros h s w E _. exists (normalised s). repeat apply conj.
  - now apply udf_os_name_for_group_string.
  - apply normalised_length.
  - apply normalised_chars.
  - unfold Udf.normalise. f_equal. f_equal. apply normalised_idempotent.
Qed.

Lemma group_label_is_normal_witness :
  exists t,
    Udf.extract_os_name_for_group ubuntu_host empty_world = (Ok (PStr t), empty_world)
    /\ String.length t = String.length "Ubuntu 20.04 LTS"
    /\ (forall (i : nat) (c : ascii),
          String.get i t = Some c ->
          c <> " "%char /\ c <> "."%char
          /\ (Nat.leb 65 (nat_of_ascii c) && Nat.leb (nat_of_ascii c) 90)%bool = false)
    /\ Udf.normalise (PStr t) = Ok (PStr t).
Proof.
  apply (group_label_is_normal ubuntu_host "Ubuntu 20.04 LTS" empty_world).
  - reflexivity.
  - reflexivity.
Defined.

(** ** Hosts are registered in the order of the records *)

Lemma registered_app a b : registered (a ++ b) = (registered a ++ registered b)%list.
Proof. apply omap_app. Qed.

Lemma registered_variables name vars :
  Forall (fun c => exists k v, c = SetVariable name k v) vars -> registered vars = [].
Proof.
  induction 1 as [|c vars (k & v & ->) _ IH]; [reflexivity | exact IH].
Qed.

Lemma registered_group_pairs name groups :
  group_pairs name groups -> registered groups = [].
Proof. induction 1 as [|g rest _ _ IH]; [reflexivity | exact IH]. Qed.

Lemma registered_udf_record h p gs :
  registered (udf_record_calls h p gs)
  = match resolved (udf_hostname h p) with Some name => [name] | None => [] end.
Proof.
  unfold udf_record_calls, resolved.
  destruct (udf_hostname h p) as [name|]; [|reflexivity].
  destruct (truthy name); [|reflexivity].
  change (AddHost name None :: udf_fill_calls name h ++ udf_group_calls name h gs)%list
    with ([AddHost name None] ++ udf_fill_calls name h ++ udf_group_calls name h gs)%list.
  rewrite !registered_app,
    (registered_variables name _ (udf_fill_calls_shape name h)),
    (registered_group_pairs name _ (udf_group_calls_shape name h gs)).
  reflexivity.
Qed.

Lemma registered_inventory_record h prefs gs :
  registered (inventory_record_calls h prefs gs)
  = match resolved (inventory_hostname h prefs) with Some name => [name] | None => [] end.
Proof.
  unfold inventory_record_calls, resolved.
  destruct (inventory_hostname h prefs) as [name|]; [|reflexivity].
  destruct (truthy name); [|reflexivity].
  change (AddHost name None :: inventory_fill_calls name h
            ++ inventory_group_calls name h gs)%list
    with ([AddHost name None] ++ inventory_fill_calls name h
            ++ inventory_group_calls name h gs)%list.
  rewrite !registered_app,
    (registered_variables name _ (inventory_fill_calls_shape name h)),
    (registered_group_pairs name _ (inventory_group_calls_shape name h gs)).
  reflexivity.
Qed.

Lemma registered_each {A : Type} (result_of : A -> result unit)
    (calls_of : A -> list call) (name_of : A -> option pyval) items :
  Forall (fun x => result_of x = Ok tt) items ->
  (forall x, registered (calls_of x)
             = match name_of x with Some name => [name] | None => [] end) ->
  registered (each_calls result_of calls_of items) = omap name_of items.
Proof.
  intros F R. induction F as [|x items E _ IH]; [reflexivity|].
  cbn [each_calls]. rewrite E, registered_app, R, IH. cbn.
  now destruct (name_of x).
Qed.

Lemma udf_record_result_Ok h p gs :
  is_Some (Udf.extractors !! p) ->
  (forall v, getitem h (Key "osName") = Ok v -> exists s, v = PStr s) ->
  udf_record_result h p gs = Ok tt.
Proof.
  intros [f Hf] S. unfold udf_record_result.
  destruct (udf_extractor_field p f Hf) as (k & _ & Y).
  rewrite (udf_hostname_known h p f _ Hf (Y h)).
  destruct (truthy (field h k)) eqn:T; [rewrite T | reflexivity].
  destruct (udf_group_result_cases h gs) as [E | (_ & _ & v & Ev & Nv)]; [exact E|].
  destruct (S v Ev) as [s ->]. now destruct (Nv s).
Qed.

(** X11. A pass registers the hosts in the order of the components: the
    hosts it registers are the hostnames the records resolve to, record by
    record, those that resolve to nothing left out and nothing else added,
    with repetitions kept.  This holds when the [mgmtIp], [id] and [osName]
    of every record, where it has them, are strings: for [udf_inventory.py]
    with recognised hostname identifiers and no group dimension but [os],
    and for [udf.py] with a recognised hostname identifier. *)
Theorem hosts_are_registered_in_record_order :
  forall (net : remote) (doc : pyval) (records : list pyval) (gs : list string)
         (w : world),
    net servers_url = Ok (Document doc) ->
    components_of doc = Ok records ->
    Forall string_fields records ->
    (forall prefs : list string,
       Forall (fun p => is_Some (UdfInventory.extractors !! p)) prefs ->
       Forall (fun g => g = "os") gs ->
       registered (inventory (snd (UdfInventory.parse net
                                     (UdfInventory.Options prefs (Some gs)) w)))
       = (registered (inventory w)
          ++ omap (fun r => resolved (fst (UdfInventory._filter_host r prefs empty_world)))
               records)%list)
    /\ (forall p : string,
          is_Some (Udf.extractors !! p) ->
          registered (inventory (snd (Udf.parse net (Udf.Options p (Some gs)) w)))
          = (registered (inventory w)
             ++ omap (fun r => resolved (fst (Udf._filter_host r p empty_world)))
                  records)%list).
Proof.
  intros net doc records gs w N C S.
  assert (D : is_None doc = false) by (destruct doc; try reflexivity; discriminate).
  split.
  - intros prefs K G.
    rewrite (udf_inventory_parse_document net _ doc w N D), C. cbn.
    destruct (for_each_writes
                (fun r => UdfInventory.do_server_inventory r prefs gs)
                (fun r => inventory_record_result r prefs gs)
                (fun r => inventory_record_calls r prefs gs) records
                (fun r => inventory_do_server_inventory_writes r prefs gs))
      as [log W].
    rewrite W. cbn. rewrite registered_app. f_equal.
    apply registered_each.
    + apply Forall_forall. intros r _. now apply inventory_record_result_Ok.
    + intros r. apply registered_inventory_record.
  - intros p K.
    rewrite (udf_parse_document net _ doc w N D), C. cbn.
    destruct (for_each_writes
                (fun r => Udf.do_server_inventory r p gs)
                (fun r => udf_record_result r p gs)
                (fun r => udf_record_calls r p gs) records
                (fun r => udf_do_server_inventory_writes r p gs))
      as [log W].
    rewrite W. cbn. rewrite registered_app. f_equal.
    apply registered_each.
    + eapply Forall_impl; [exact S|]. intros r Sr.
      apply udf_record_result_Ok; [exact K|].
      intros v E. apply (Sr "osName"); [|exact E]. right; right; now left.
    + intros r. apply registered_udf_record.
Qed.

Lemma hosts_are_registered_in_record_order_witness :
  registered (inventory (snd (UdfInventory.parse (fun _ => Ok (Document three_components))
                                (UdfInventory.Options ["hostname"; "public_ipv4"]
                                   (Some ["os"])) empty_world)))
  = (registered (inventory empty_world)
     ++ omap (fun r => resolved (fst (UdfInventory._filter_host r
                                        ["hostname"; "public_ipv4"] empty_world)))
          [PDict [("id", PStr "h2"); ("mgmtIp", PStr "10.0.0.7")];
           PDict [("name", PStr "nameless")];
           PDict [("id", PStr "h1"); ("mgmtIp", PStr "10.0.0.5");
                  ("osName", PStr "CentOS 7")]])%list
  /\ registered (inventory (snd (Udf.parse (fun _ => Ok (Document three_components))
                                   (Udf.Options "private_ipv4" (Some ["os"]))
                                   empty_world)))
     = (registered (inventory empty_world)
        ++ omap (fun r => resolved (fst (Udf._filter_host r "private_ipv4" empty_world)))
             [PDict [("id", PStr "h2"); ("mgmtIp", PStr "10.0.0.7")];
              PDict [("name", PStr "nameless")];
              PDict [("id", PStr "h1"); ("mgmtIp", PStr "10.0.0.5");
                     ("osName", PStr "CentOS 7")]])%list.
Proof.
  destruct (hosts_are_registered_in_record_order
              (fun _ => Ok (Document three_components)) three_components _ ["os"]
              empty_world eq_refl eq_refl) as [I U].
  - repeat constructor; intros k v [<- | [<- | [<- | []]]] E; vm_compute in E;
      try discriminate; injection E as <-; eauto.
  - split.
    + apply I; repeat constructor; vm_compute; eauto.
    + apply U. vm_compute; eauto.
Defined.

(** ** The name of a host *)

Lemma udf_hostname_field h p k name :
  (p = "private_ipv4" /\ k = "mgmtIp" \/ p = "id" /\ k = "id") ->
  getitem h (Key k) = Ok name -> truthy name = true ->
  udf_hostname h p = Ok name.
Proof.
  intros P E T.
  assert (exists f : extractor, Udf.extractors !! p = Some f) as [f Hf].
  { destruct P as [[-> _] | [-> _]]; eexists; reflexivity. }
  destruct (udf_extractor_field p f Hf) as (k' & P' & Y).
  assert (k' = k) as ->.
  { destruct P as [[-> ->] | [-> ->]], P' as [[? ->] | [? ->]];
      try reflexivity; discriminate. }
  rewrite (udf_hostname_known h p f _ Hf (Y h)).
  unfold field. now rewrite E, T.
Qed.

(** X12. In [udf.py] a record is registered under the field its hostname
    identifier stands for.  With [private_ipv4], a record whose [mgmtIp] is
    a string that is not empty becomes a host of that name: the first call
    registers it and the second sets its variable [private_ipv4] to the
    host's own name.  With [id], a record whose [id] is a string that is not
    empty becomes a host named by the id. *)
Theorem host_is_named_by_its_preference :
  forall (h : pyval) (gs : list string) (w : world) (n : string),
    n <> "" ->
    (getitem h (Key "mgmtIp") = Ok (PStr n) ->
     exists calls,
       inventory (snd (Udf.do_server_inventory h "private_ipv4" gs w))
       = (inventory w ++ AddHost (PStr n) None
            :: SetVariable (PStr n) "private_ipv4" (PStr n) :: calls)%list)
    /\ (getitem h (Key "id") = Ok (PStr n) ->
        exists calls,
          inventory (snd (Udf.do_server_inventory h "id" gs w))
          = (inventory w ++ AddHost (PStr n) None :: calls)%list).
Proof.
  intros h gs w n N. pose proof (truthy_PStr_nonempty n N) as T. split.
  - intros E. destruct (udf_record_run h "private_ipv4" gs w) as [_ ->].
    unfold udf_record_calls.
    rewrite (udf_hostname_field h "private_ipv4" "mgmtIp" (PStr n)) by auto.
    rewrite T. unfold udf_fill_calls at 1. unfold set_if at 1. unfold field at 1 2.
    rewrite E, T. eexists. cbn [app]. reflexivity.
  - intros E. destruct (udf_record_run h "id" gs w) as [_ ->].
    unfold udf_record_calls.
    rewrite (udf_hostname_field h "id" "id" (PStr n)) by auto.
    rewrite T. eexists. reflexivity.
Qed.

Lemma host_is_named_by_its_preference_witness :
  (exists calls,
     inventory (snd (Udf.do_server_inventory centos_host "private_ipv4" ["os"]
                       empty_world))
     = (inventory empty_world ++ AddHost (PStr "10.0.0.5") None
          :: SetVariable (PStr "10.0.0.5") "private_ipv4" (PStr "10.0.0.5")
          :: calls)%list)
  /\ (exists calls,
        inventory (snd (Udf.do_server_inventory centos_host "id" ["os"] empty_world))
        = (inventory empty_world ++ AddHost (PStr "h1") None :: calls)%list).
Proof.
  split.
  - apply (proj1 (host_is_named_by_its_preference centos_host ["os"] empty_world
                    "10.0.0.5" ltac:(discriminate))).
    reflexivity.
  - apply (proj2 (host_is_named_by_its_preference centos_host ["os"] empty_world
                    "h1" ltac:(discriminate))).
    reflexivity.
Defined.

(** ** The lookup cache of group names *)

Lemma key_get_set_string d i j v :
  string_keys d ->
  key_get (key_set d (PStr i) v) (PStr j)
  = if String.eqb i j then Some v else key_get d (PStr j).
Proof.
  induction 1 as [|[k' v'] d [i' E] _ IH]; cbn in *.
  - reflexivity.
  - subst k'. cbn.
    destruct (String.eqb_spec i' i) as [-> | N]; cbn.
    + destruct (String.eqb_spec i j); reflexivity.
    + rewrite IH. destruct (String.eqb_spec i' j) as [-> | N'];
        destruct (String.eqb_spec i j); try reflexivity. congruence.
Qed.

Lemma string_keys_set d i v : string_keys d -> string_keys (key_set d (PStr i) v).
Proof.
  induction 1 as [|[k' v'] d [i' E] F IH]; cbn in *.
  - repeat constructor. now exists i.
  - subst k'. cbn. destruct (String.eqb i' i).
    + constructor; [now exists i' | exact F].
    + constructor; [now exists i' | exact IH].
Qed.

Lemma add_members_well_formed rpn name ms :
  getitem rpn (Key "name") = Ok name ->
  Forall (fun m => exists i, getitem m (Key "id") = Ok (PStr i)) ms ->
  forall d, string_keys d ->
    exists d',
      UdfInventory.add_members rpn ms d = Ok d'
      /\ string_keys d'
      /\ forall j,
           key_get d' (PStr j)
           = if existsb (fun m => match getitem m (Key "id") with
                                  | Ok (PStr i) => String.eqb i j
                                  | _ => false
                                  end) ms
             then Some name else key_get d (PStr j).
Proof.
  intros N. induction 1 as [|m ms [i E] _ IH]; intros d S.
  - exists d. repeat split; auto.
  - destruct (IH (key_set d (PStr i) name) (string_keys_set d i name S))
      as (d' & R & S' & G).
    exists d'. split; [|split; [exact S'|]].
    + cbn [UdfInventory.add_members]. rewrite N, E. exact R.
    + intros j. rewrite G. cbn [existsb]. rewrite E.
      rewrite key_get_set_string by exact S.
      destruct (String.eqb i j); cbn; [|reflexivity].
      now destruct (existsb _ ms).
Qed.

Lemma add_groups_well_formed rpns :
  Forall well_formed_group rpns ->
  forall d, string_keys d ->
    exists d',
      UdfInventory.add_groups rpns d = Ok d'
      /\ string_keys d'
      /\ forall j,
           key_get d' (PStr j)
           = match last (omap (fun rpn => if lists_member rpn j
                                          then Some (field rpn "name") else None) rpns)
             with
             | Some name => Some name
             | None => key_get d (PStr j)
             end.
Proof.
  induction 1 as [|rpn rpns (name & ms & N & Ms & F) _ IH]; intros d S.
  - exists d. repeat split; auto.
  - destruct (add_members_well_formed rpn name ms N F d S) as (d1 & R1 & S1 & G1).
    destruct (IH d1 S1) as (d' & R & S' & G).
    exists d'. split; [|split; [exact S'|]].
    + cbn [UdfInventory.add_groups]. rewrite Ms. cbn. rewrite R1. exact R.
    + intros j. rewrite G, G1. cbn [omap list_omap].
      unfold lists_member at 2, field at 2. rewrite Ms, N.
      destruct (existsb _ ms); [rewrite last_cons|];
        now destruct (last (omap _ rpns)).
Qed.

(** X13. On a list of groups that each have a name and a list of members
    with string ids, [extract_rpn_lookup_cache] returns a dictionary in which
    every member id is bound to the name of the last group that lists it, and
    nothing else is bound. *)
Theorem lookup_cache_binds_the_last_group :
  forall rpns : list pyval,
    Forall well_formed_group rpns ->
    exists lookup,
      UdfInventory.extract_rpn_lookup_cache (PList rpns) = Ok lookup
      /\ string_keys lookup
      /\ forall i,
           key_get lookup (PStr i)
           = last (omap (fun rpn => if lists_member rpn i
                                    then Some (field rpn "name") else None) rpns).
Proof.
  intros rpns W.
  destruct (add_groups_well_formed rpns W [] ltac:(constructor)) as (d & R & S & G).
  exists d. split; [exact R | split; [exact S|]].
  intros i. rewrite G. now destruct (last _).
Qed.

Lemma lookup_cache_binds_the_last_group_witness :
  exists lookup,
    UdfInventory.extract_rpn_lookup_cache (PList two_groups) = Ok lookup
    /\ string_keys lookup
    /\ forall i,
         key_get lookup (PStr i)
         = last (omap (fun rpn => if lists_member rpn i
                                  then Some (field rpn "name") else None) two_groups).
Proof.
  apply (lookup_cache_binds_the_last_group two_groups).
  repeat constructor; eexists _, _; (split; [reflexivity|]);
    (split; [reflexivity|]); repeat constructor; eexists; reflexivity.
Defined.

Lemma add_groups_app pre rest d :
  UdfInventory.add_groups (pre ++ rest) d
  = match UdfInventory.add_groups pre d with
    | Ok d' => UdfInventory.add_groups rest d'
    | Raise e => Raise e
    end.
Proof.
  revert d. induction pre as [|rpn pre IH]; intros d; [reflexivity|].
  cbn [app UdfInventory.add_groups]. unfold mbind, result_bind.
  destruct (getitem rpn (Key "members")) as [ms|]; [|reflexivity].
  destruct (iterate ms) as [l|]; [|reflexivity].
  destruct (UdfInventory.add_members rpn l d); [apply IH | reflexivity].
Qed.

Lemma add_members_app rpn ms1 ms2 d :
  UdfInventory.add_members rpn (ms1 ++ ms2) d
  = match UdfInventory.add_members rpn ms1 d with
    | Ok d' => UdfInventory.add_members rpn ms2 d'
    | Raise e => Raise e
    end.
Proof.
  revert d. induction ms1 as [|m ms1 IH]; intros d; [reflexivity|].
  cbn [app UdfInventory.add_members]. unfold mbind, result_bind.
  destruct (getitem rpn (Key "name")); [|reflexivity].
  destruct (getitem m (Key "id")) as [i|]; [|reflexivity].
  destruct (setitem d i a); [apply IH | reflexivity].
Qed.

(** X14. [extract_rpn_lookup_cache] catches nothing.  After groups that are
    as expected, a group whose [members] cannot be read or iterated over
    raises that exception; a group with a first member but no [name] raises
    the [KeyError] of the name; a member without [id], after members that
    have one, raises the [KeyError] of the id; and a member whose id is a
    list or an object raises [TypeError].  A group whose list of members is
    empty is passed over, and its name is never asked for. *)
Theorem lookup_cache_failures :
  forall (pre : list pyval) (rpn : pyval) (rest : list pyval),
    Forall well_formed_group pre ->
    (forall e,
       match getitem rpn (Key "members") with
       | Ok members => iterate members
       | Raise e => Raise e
       end = Raise e ->
       UdfInventory.extract_rpn_lookup_cache (PList (pre ++ rpn :: rest)) = Raise e)
    /\ (forall m ms e,
          getitem rpn (Key "members") = Ok (PList (m :: ms)) ->
          getitem rpn (Key "name") = Raise e ->
          UdfInventory.extract_rpn_lookup_cache (PList (pre ++ rpn :: rest)) = Raise e)
    /\ (forall name ms1 m ms2 e,
          getitem rpn (Key "name") = Ok name ->
          getitem rpn (Key "members") = Ok (PList (ms1 ++ m :: ms2)) ->
          Forall (fun m => exists i, getitem m (Key "id") = Ok (PStr i)) ms1 ->
          (getitem m (Key "id") = Raise e
           \/ exists v, getitem m (Key "id") = Ok v /\ hashable v = false
                        /\ e = TypeError) ->
          UdfInventory.extract_rpn_lookup_cache (PList (pre ++ rpn :: rest)) = Raise e)
    /\ (getitem rpn (Key "members") = Ok (PList []) ->
        UdfInventory.extract_rpn_lookup_cache (PList (pre ++ rpn :: rest))
        = UdfInventory.extract_rpn_lookup_cache (PList (pre ++ rest))).
Proof.
  intros pre rpn rest W.
  destruct (add_groups_well_formed pre W [] ltac:(constructor)) as (d & R & S & _).
  unfold UdfInventory.extract_rpn_lookup_cache. cbn [iterate mbind result_bind].
  rewrite !add_groups_app, R. cbn [UdfInventory.add_groups].
  unfold mbind, result_bind. repeat apply conj.
  - intros e E. destruct (getitem rpn (Key "members")) as [ms|];
      [now rewrite E | now injection E as ->].
  - intros m ms e Ms N. rewrite Ms. cbn. unfold mbind, result_bind. now rewrite N.
  - intros name ms1 m ms2 e N Ms F C. rewrite Ms. cbn [iterate].
    rewrite add_members_app.
    destruct (add_members_well_formed rpn name ms1 N F d S) as (d1 & -> & _ & _).
    cbn. unfold mbind, result_bind. rewrite N.
    destruct C as [-> | (v & -> & H & ->)]; [reflexivity|].
    unfold setitem. now rewrite H.
  - intros Ms. now rewrite Ms.
Qed.

Lemma lookup_cache_failures_witness :
  UdfInventory.extract_rpn_lookup_cache
    (PList (two_groups ++ PDict [("name", PStr "lost")] :: []))
  = Raise (KeyError (PStr "members"))
  /\ UdfInventory.extract_rpn_lookup_cache
       (PList (two_groups ++ PDict [("members", PList [])] :: []))
     = UdfInventory.extract_rpn_lookup_cache (PList (two_groups ++ [])).
Proof.
  assert (W : Forall well_formed_group two_groups).
  { repeat constructor; eexists _, _; (split; [reflexivity|]);
      (split; [reflexivity|]); repeat constructor; eexists; reflexivity. }
  split.
  - apply (proj1 (lookup_cache_failures two_groups (PDict [("name", PStr "lost")])
                    [] W)).
    reflexivity.
  - apply (proj2 (proj2 (proj2 (lookup_cache_failures two_groups
                    (PDict [("members", PList [])]) [] W)))).
    reflexivity.
Defined.

(** ** Group dimensions after the one that ends the loop *)

Lemma udf_assign_groups_os_step name h rest w :
  Udf.assign_groups name h ("os" :: rest) w
  = match getitem h (Key "osName") with
    | Ok (PStr s) =>
        if String.eqb s "" then (Ok tt, w)
        else Udf.assign_groups name h rest
               (World (display w)
                  (inventory w ++ [AddGroup (PStr (normalised s));
                                   AddHost name (Some (PStr (normalised s)))]))
    | Ok _ => (Raise AttributeError, w)
    | Raise _ =>
        (Ok tt,
         warned w [Warning "An error happened while extracting OS name for group. Information skipped."])
    end.
Proof.
  destruct (getitem h (Key "osName")) as [v|e] eqn:E.
  - destruct v;
      try (cbn [Udf.assign_groups]; rewrite udf_group_os; run_monad;
           rewrite udf_group_os; cbv beta iota;
           rewrite udf_os_name_for_group_run, E; reflexivity).
    apply (udf_assign_groups_os name h s rest w E).
  - cbn [Udf.assign_groups]. rewrite udf_group_os. run_monad.
    rewrite udf_group_os. cbv beta iota.
    rewrite udf_os_name_for_group_run, E. reflexivity.
Qed.

Lemma udf_assign_groups_dead_suffix name h pre g rest :
  Forall (fun x => x = "os") pre -> g <> "os" ->
  forall w,
    Udf.assign_groups name h (pre ++ g :: rest) w
    = Udf.assign_groups name h (pre ++ [g]) w.
Proof.
  intros F N. induction F as [|x pre -> _ IH]; intros w.
  - cbn [app]. now rewrite !udf_assign_groups_unknown.
  - cbn [app]. rewrite !udf_assign_groups_os_step.
    destruct (getitem h (Key "osName")) as [[]|]; try reflexivity.
    destruct (String.eqb s ""); [reflexivity | apply IH].
Qed.

Lemma inventory_assign_groups_os_step name h rest w :
  UdfInventory.assign_groups name h ("os" :: rest) w
  = if truthy (field h "osName")
    then UdfInventory.assign_groups name h rest
           (World (display w ++ field_log h "osName"
                     "An error happened while extracting OS name. Information skipped.")
              (inventory w ++ [AddGroup (field h "osName");
                               AddHost name (Some (field h "osName"))]))
    else (Ok tt,
          warned w (field_log h "osName"
                      "An error happened while extracting OS name. Information skipped.")).
Proof.
  pose proof (fun w => field_extractor_value key_errors _ h "osName" w eq_refl eq_refl
              : UdfInventory.extract_os_name h w = _) as Ro.
  cbn [UdfInventory.assign_groups]. run_monad.
  rewrite udf_inventory_group_os. cbv beta iota. rewrite Ro.
  destruct (truthy (field h "osName")); cbn [negb]; cbv beta iota; [|reflexivity].
  unfold inventory_add_group, inventory_add_host, invoke, warned. cbn.
  now rewrite <- !app_assoc.
Qed.

Lemma inventory_assign_groups_dead_suffix name h pre g rest :
  Forall (fun x => x = "os") pre -> g <> "os" ->
  forall w,
    UdfInventory.assign_groups name h (pre ++ g :: rest) w
    = UdfInventory.assign_groups name h (pre ++ [g]) w.
Proof.
  intros F N. induction F as [|x pre -> _ IH]; intros w.
  - cbn [app]. now rewrite !udf_inventory_assign_groups_unknown.
  - cbn [app]. rewrite !inventory_assign_groups_os_step.
    destruct (truthy (field h "osName")); [apply IH | reflexivity].
Qed.

(** X16. The group loop stops for good at a dimension it does not know:
    what follows an unknown dimension in the group preferences changes
    neither what processing a record returns nor anything it writes.  In
    [udf.py] the loop ends there with a warning, in [udf_inventory.py] with
    a [KeyError]. *)
Theorem dimensions_after_an_unknown_one_are_dead :
  forall (h : pyval) (pre : list string) (g : string) (rest : list string) (w : world),
    Forall (fun x => x = "os") pre ->
    g <> "os" ->
    (forall p : string,
       Udf.do_server_inventory h p (pre ++ g :: rest) w
       = Udf.do_server_inventory h p (pre ++ [g]) w)
    /\ (forall prefs : list string,
          UdfInventory.do_server_inventory h prefs (pre ++ g :: rest) w
          = UdfInventory.do_server_inventory h prefs (pre ++ [g]) w).
Proof.
  intros h pre g rest w F N. split.
  - intros p. unfold Udf.do_server_inventory. run_monad.
    destruct (Udf._filter_host h p w) as [[name|e] w1]; [|reflexivity].
    destruct (negb (truthy name)); [reflexivity|].
    destruct (inventory_add_host name None w1) as [[[]|e] w2]; [|reflexivity].
    destruct (Udf._fill_host_variables name h w2) as [[[]|e] w3]; [|reflexivity].
    now apply udf_assign_groups_dead_suffix.
  - intros prefs. unfold UdfInventory.do_server_inventory. run_monad.
    destruct (UdfInventory._filter_host h prefs w) as [[name|e] w1]; [|reflexivity].
    destruct (negb (truthy name)); [reflexivity|].
    destruct (inventory_add_host name None w1) as [[[]|e] w2]; [|reflexivity].
    destruct (UdfInventory._fill_host_variables name h w2) as [[[]|e] w3];
      [|reflexivity].
    now apply inventory_assign_groups_dead_suffix.
Qed.

Lemma dimensions_after_an_unknown_one_are_dead_witness :
  Udf.do_server_inventory centos_host "private_ipv4" (["os"] ++ "rack" :: ["os"])
    empty_world
  = Udf.do_server_inventory centos_host "private_ipv4" (["os"] ++ ["rack"]) empty_world
  /\ UdfInventory.do_server_inventory centos_host ["public_ipv4"]
       (["os"] ++ "rack" :: ["os"]) empty_world
     = UdfInventory.do_server_inventory centos_host ["public_ipv4"] (["os"] ++ ["rack"])
         empty_world.
Proof.
  assert (F : Forall (fun x => x = "os") ["os"]) by (repeat constructor).
  assert (N : "rack" <> "os") by discriminate.
  destruct (dimensions_after_an_unknown_one_are_dead centos_host ["os"] "rack" ["os"]
              empty_world F N) as [U I].
  split; [apply U | apply I].
Defined.

(** ** One preference, in either plugin *)

(** X17. The resolver of [udf_inventory.py], given a list of one
    identifier, returns what the resolver of [udf.py] returns for the
    matching single preference: [private_ipv4] in both, and [hostname] there
    for [id] here. *)
Theorem single_preference_agrees_across_plugins :
  forall (h : pyval) (w : world),
    fst (UdfInventory._filter_host h ["private_ipv4"] w)
    = fst (Udf._filter_host h "private_ipv4" w)
    /\ fst (UdfInventory._filter_host h ["hostname"] w)
       = fst (Udf._filter_host h "id" w).
Proof.
  intros h w.
  rewrite !inventory_filter_host_run, !udf_filter_host_run.
  assert (Ya : yields UdfInventory.extract_private_ipv4 h (field h "mgmtIp")).
  { intros w'. unfold UdfInventory.extract_private_ipv4.
    now rewrite field_extractor_value by reflexivity. }
  assert (Yh : yields UdfInventory.extract_hostname h (field h "id")).
  { intros w'. unfold UdfInventory.extract_hostname.
    now rewrite field_extractor_value by reflexivity. }
  assert (Yb : yields Udf.extract_private_ipv4 h (field h "mgmtIp")) by exact Ya.
  assert (Yi : yields Udf.extract_id h (field h "id")).
  { intros w'. unfold Udf.extract_id.
    now rewrite field_extractor_value by reflexivity. }
  rewrite (inventory_hostname_cons h "private_ipv4" [] _ _ eq_refl Ya),
          (inventory_hostname_cons h "hostname" [] _ _ eq_refl Yh),
          (udf_hostname_known h "private_ipv4" _ _ eq_refl Yb),
          (udf_hostname_known h "id" _ _ eq_refl Yi).
  split.
  - now destruct (truthy (field h "mgmtIp")).
  - now destruct (truthy (field h "id")).
Qed.
